(** * Hum Embedding Service: a shallow embedding of [main.py]

    The service is glue around three libraries: [librosa] (decoding and
    resampling), [transformers] (the pretrained Wav2Vec2 processor and
    encoder) and [torch] (tensors).  The libraries are external
    collaborators: their operations are fields of the [External] interface
    or of the handles the environment hands out, and nothing is assumed
    about them beyond their types.  The module-level globals [processor] and
    [model] become an explicit [world], threaded through a state and
    exception monad; every library call leaves an [event] in the world's
    trace, so that "before decoding" or "without reloading" are statements
    about traces. *)

From Stdlib Require Import List String Arith Lia Bool ZArith.
From Stdlib Require Import DecimalString.
Import ListNotations.
Open Scope string_scope.

Set Implicit Arguments.
Set Warnings "-abstract-large-number".

(** ** The libraries' interface *)

(** [scalar] is the element type of samples and tensors (a float in the
    program); only the two operations a mean needs are used.
    [librosa_load contents sr mono] is [librosa.load(io.BytesIO(contents),
    sr=sr, mono=mono)]: either the message of the exception it raised, or
    the resampled buffer with its sample rate.  Whether it raises and what
    it returns depend on the bytes alone; the message is the one of the
    request at hand, and where the library's text quotes the buffer object
    of that request, it is the same text for equal bytes only up to that
    quotation. *)
Class External := {
  scalar : Type;
  s_zero : scalar;
  s_add : scalar -> scalar -> scalar;
  s_div : scalar -> nat -> scalar;
  librosa_load : list Byte.byte -> nat -> bool -> string + (list scalar * nat)
}.

(** ** Constants of the module *)

Definition MODEL_ID : string := "facebook/wav2vec2-base".
Definition TARGET_SR : nat := 16000.
Definition EMBEDDING_DIM : nat := 768.

(** ** Exceptions and results *)

Inductive exn :=
| HTTPException (status_code : nat) (detail : string)
| LibraryError (msg : string)
| TypeError (msg : string)
| AttributeError (msg : string).

(** [str(e)], as the f-strings of the handlers use it. *)
Definition exn_str (e : exn) : string :=
  match e with
  | HTTPException s d => NilEmpty.string_of_uint (Nat.to_uint s) ++ ": " ++ d
  | LibraryError m => m
  | TypeError m => m
  | AttributeError m => m
  end.

Inductive result (A : Type) :=
| Ok (a : A)
| Raise (e : exn).
Arguments Ok {A} a.
Arguments Raise {A} e.

(** ** Observable library calls *)

Inductive event :=
| LogInfo (msg : string)
| FromPretrainedProcessor
| FromPretrainedModel
| ModelEval
| AudioRead
| LibrosaLoad
| ProcessorCall
| ModelForward.

Definition event_eqb (a b : event) : bool :=
  match a, b with
  | LogInfo x, LogInfo y => String.eqb x y
  | FromPretrainedProcessor, FromPretrainedProcessor => true
  | FromPretrainedModel, FromPretrainedModel => true
  | ModelEval, ModelEval => true
  | AudioRead, AudioRead => true
  | LibrosaLoad, LibrosaLoad => true
  | ProcessorCall, ProcessorCall => true
  | ModelForward, ModelForward => true
  | _, _ => false
  end.

(** How often [ev] occurs in a trace. *)
Definition occurrences (ev : event) (tr : list event) : nat :=
  List.length (filter (event_eqb ev) tr).

Section Definitions.
Context `{External}.

(** ** Handles *)

(** The processor object: calling it on a buffer gives the [input_values]
    of the single batch element, or raises. *)
Record Wav2Vec2Processor := {
  proc_call : list scalar -> nat -> string + list scalar
}.

(** [last_hidden_state] of the single batch element: [hs_steps] holds one
    row per time step, [hs_width] is the size of the last axis. *)
Record hidden_state := {
  hs_width : nat;
  hs_steps : list (list scalar)
}.

(** The encoder object.  In training mode the forward pass draws on a
    source of randomness (dropout, masking), in inference mode it does not;
    [training] is the module's mode flag. *)
Record Wav2Vec2Model := {
  training : bool;
  forward_eval : list scalar -> string + hidden_state;
  forward_train : nat -> list scalar -> string + hidden_state
}.

(** [m.eval()] *)
Definition eval (m : Wav2Vec2Model) : Wav2Vec2Model :=
  {| training := false;
     forward_eval := forward_eval m;
     forward_train := forward_train m |}.

(** [m(input_values)], with [noise] the randomness available to the call. *)
Definition forward (m : Wav2Vec2Model) (noise : nat) (x : list scalar)
  : string + hidden_state :=
  if training m then forward_train m noise x else forward_eval m x.

(** ** The process state *)

(** The two globals of the module and the trace of library calls, most
    recent first. *)
Record world := {
  processor : option Wav2Vec2Processor;
  model : option Wav2Vec2Model;
  trace : list event
}.

Definition initial_world : world :=
  {| processor := None; model := None; trace := [] |}.

(** What the outside world answers during one call: the outcome of the two
    [from_pretrained] downloads should they be attempted, the outcome of
    reading the upload, and the randomness at hand. *)
Record env := {
  processor_from_pretrained : string + Wav2Vec2Processor;
  model_from_pretrained : string + Wav2Vec2Model;
  audio_read : string + list Byte.byte;
  noise : nat
}.

(** ** State and exception monad *)

Definition M (A : Type) : Type := world -> result A * world.

Definition ret {A} (a : A) : M A := fun w => (Ok a, w).

Definition bind {A B} (m : M A) (k : A -> M B) : M B :=
  fun w =>
    match m w with
    | (Ok a, w') => k a w'
    | (Raise e, w') => (Raise e, w')
    end.

Definition raise {A} (e : exn) : M A := fun w => (Raise e, w).

(** [try: m except Exception as e: h e] *)
Definition try_except {A} (m : M A) (h : exn -> M A) : M A :=
  fun w =>
    match m w with
    | (Ok a, w') => (Ok a, w')
    | (Raise e, w') => h e w'
    end.

Definition emit (ev : event) : M unit :=
  fun w => (Ok tt, {| processor := processor w; model := model w;
                      trace := ev :: trace w |}).

Definition get_processor : M (option Wav2Vec2Processor) :=
  fun w => (Ok (processor w), w).

Definition get_model : M (option Wav2Vec2Model) :=
  fun w => (Ok (model w), w).

Definition set_processor (p : option Wav2Vec2Processor) : M unit :=
  fun w => (Ok tt, {| processor := p; model := model w; trace := trace w |}).

Definition set_model (m : option Wav2Vec2Model) : M unit :=
  fun w => (Ok tt, {| processor := processor w; model := m; trace := trace w |}).

(** A call into a library: it is recorded, then returns or raises. *)
Definition library_call {A} (ev : event) (outcome : string + A) : M A :=
  bind (emit ev) (fun _ =>
    match outcome with
    | inr a => ret a
    | inl msg => raise (LibraryError msg)
    end).

Definition logger_info (msg : string) : M unit := emit (LogInfo msg).

End Definitions.

Declare Scope monad_scope.
Delimit Scope monad_scope with monad.
Notation "x <- m ;; k" := (bind m (fun x => k))
  (at level 61, m at next level, right associativity) : monad_scope.
Notation "m ;;; k" := (bind m (fun _ => k))
  (at level 61, right associativity) : monad_scope.

Section Program.
Context `{External}.
Local Open Scope monad_scope.

(** ** Mean pooling *)

(** Element-wise sum of two rows. *)
Fixpoint row_add (a b : list scalar) : list scalar :=
  match a, b with
  | x :: a', y :: b' => s_add x y :: row_add a' b'
  | _, _ => []
  end.

(** [hidden.mean(dim=1).squeeze(0)] on a tensor of shape (1, seq, width):
    the rows are accumulated over the time axis and the total is divided by
    the number of rows. *)
Definition mean_dim1 (h : hidden_state) : list scalar :=
  map (fun s => s_div s (List.length (hs_steps h)))
      (fold_left row_add (hs_steps h) (repeat s_zero (hs_width h))).

(** ** [load_model] *)

(** The two lines it logs. *)
Definition loading_msg : string := "Loading Wav2Vec2 model: " ++ MODEL_ID.
Definition loaded_msg : string :=
  "Model loaded. Embedding dim="
  ++ NilEmpty.string_of_uint (Nat.to_uint EMBEDDING_DIM).

(** [model.eval()] on the global. *)
Definition model_eval : M unit :=
  m <- get_model ;;
  match m with
  | Some m' => emit ModelEval ;;; set_model (Some (eval m'))
  | None => raise (AttributeError "'NoneType' object has no attribute 'eval'")
  end.

Definition load_model (e : env) : M unit :=
  m <- get_model ;;
  match m with
  | Some _ => ret tt
  | None =>
      logger_info loading_msg ;;;
      p <- library_call FromPretrainedProcessor (processor_from_pretrained e) ;;
      set_processor (Some p) ;;;
      m' <- library_call FromPretrainedModel (model_from_pretrained e) ;;
      set_model (Some m') ;;;
      model_eval ;;;
      logger_info loaded_msg
  end.

(** ** The handlers *)

Definition startup (e : env) : M unit := load_model e.

Record health_body := {
  status : string;
  embedding_dim : nat
}.

Definition health : health_body :=
  {| status := "ok"; embedding_dim := EMBEDDING_DIM |}.

Record embed_body := {
  embedding : list scalar;
  dim : nat
}.

(** [processor(y, sampling_rate=TARGET_SR, return_tensors="pt",
    padding=True).input_values] on the global. *)
Definition call_processor (y : list scalar) : M (list scalar) :=
  p <- get_processor ;;
  match p with
  | Some p' => library_call ProcessorCall (proc_call p' y TARGET_SR)
  | None => raise (TypeError "'NoneType' object is not callable")
  end.

(** [model(input_values).last_hidden_state] on the global. *)
Definition call_model (e : env) (input_values : list scalar) : M hidden_state :=
  m <- get_model ;;
  match m with
  | Some m' => library_call ModelForward (forward m' (noise e) input_values)
  | None => raise (TypeError "'NoneType' object is not callable")
  end.

(** The [with torch.no_grad()] block of [embed]. *)
Definition infer (e : env) (y : list scalar) : M embed_body :=
  input_values <- call_processor y ;;
  hidden <- call_model e input_values ;;
  let vec := mean_dim1 hidden in
  ret {| embedding := vec; dim := List.length vec |}.

Definition embed (e : env) : M embed_body :=
  load_model e ;;;
  contents <- try_except (library_call AudioRead (audio_read e))
    (fun ex => raise (HTTPException 400
                        ("Failed to read upload: " ++ exn_str ex))) ;;
  if (List.length contents <? 1000)%nat
  then raise (HTTPException 400 "Audio file too short")
  else
    loaded <- try_except
      (library_call LibrosaLoad (librosa_load contents TARGET_SR true))
      (fun ex => raise (HTTPException 400 ("Invalid audio: " ++ exn_str ex))) ;;
    let y := fst loaded in
    if (List.length y <? 1600)%nat
    then raise (HTTPException 400 "Audio too short after load")
    else infer e y.

(** ** The framework's side *)

(** What the client receives for an outcome of [embed]: the body with 200,
    an [HTTPException] as its status and detail, any other exception as a
    server error. *)
Inductive http_response :=
| Http200 (body : embed_body)
| HttpError (status_code : nat) (detail : string)
| Http500.

Definition respond (r : result embed_body) : http_response :=
  match r with
  | Ok b => Http200 b
  | Raise (HTTPException s d) => HttpError s d
  | Raise _ => Http500
  end.

(** The status line and the JSON body of a 200 answer. *)
Definition status_of (r : http_response) : nat :=
  match r with
  | Http200 _ => 200
  | HttpError s _ => s
  | Http500 => 500
  end.

Definition body_of (r : http_response) : option embed_body :=
  match r with
  | Http200 b => Some b
  | _ => None
  end.

(** The process under the server started by [uvicorn.run]: the handlers
    registered with [on_event("startup")] run before any request is
    accepted, and the server gives up when one of them raises. *)
Inductive process :=
| Serving (w : world)
| Exited.

Definition boot (e : env) : process :=
  match startup e initial_world with
  | (Ok _, w) => Serving w
  | (Raise _, _) => Exited
  end.

(** One POST /embed against the process: no answer once it has exited. *)
Definition serve (p : process) (e : env) : option http_response * process :=
  match p with
  | Exited => (None, Exited)
  | Serving w =>
      let (r, w') := embed e w in (Some (respond r), Serving w')
  end.

Fixpoint serve_all (p : process) (es : list env)
  : list (option http_response) * process :=
  match es with
  | [] => ([], p)
  | e :: es' =>
      let (r, p') := serve p e in
      let (rs, p'') := serve_all p' es' in
      (r :: rs, p'')
  end.

(** The service is Ready when the model is loaded. *)
Definition ready (w : world) : bool :=
  match model w with Some _ => true | None => false end.

(** ** Histories *)

(** Whatever may run against the globals during the life of a process. *)
Inductive op :=
| OpStartup (e : env)
| OpLoadModel (e : env)
| OpEmbed (e : env)
| OpHealth.

Definition exec (w : world) (o : op) : world :=
  match o with
  | OpStartup e => snd (startup e w)
  | OpLoadModel e => snd (load_model e w)
  | OpEmbed e => snd (embed e w)
  | OpHealth => w
  end.

Definition exec_all (ops : list op) (w : world) : world :=
  fold_left exec ops w.

Definition reachable (w : world) : Prop :=
  exists ops, w = exec_all ops initial_world.

(** [w] after the calls [evs] (most recent first) were recorded. *)
Definition logged (evs : list event) (w : world) : world :=
  {| processor := processor w; model := model w; trace := evs ++ trace w |}.

(** The calls that belong to the handling of a request, as opposed to the
    loading of the model. *)
Definition request_event (ev : event) : bool :=
  match ev with
  | AudioRead | LibrosaLoad | ProcessorCall | ModelForward => true
  | _ => false
  end.

(** The calls made inside the [no_grad] block. *)
Definition inference_event (ev : event) : bool :=
  match ev with
  | ProcessorCall | ModelForward => true
  | _ => false
  end.

(** [m] leaves the globals alone and records only calls that satisfy [P]. *)
Definition emits_only {A} (P : event -> bool) (m : M A) : Prop :=
  forall w, exists tr, snd (m w) = logged tr w /\ forallb P tr = true.

(** ** The encoder's contract *)

(** The shape of [last_hidden_state] for the named checkpoint: every time
    step carries [EMBEDDING_DIM] features. *)
Definition hidden_shape_ok (h : hidden_state) : Prop :=
  hs_width h = EMBEDDING_DIM /\
  Forall (fun row => List.length row = EMBEDDING_DIM) (hs_steps h).

(** The sum of feature [j] over the time steps, in time order. *)
Definition feature_sum (j : nat) (h : hidden_state) : scalar :=
  fold_left s_add (map (fun row => nth j row s_zero) (hs_steps h)) s_zero.

End Program.

(** ** An instance to run the program on *)

Module Fixture.

(** Integer scalars with truncating division. *)
Definition sample_of_byte (b : Byte.byte) : Z := Z.of_N (Byte.to_N b).

(** A toy decoder: a file that starts with the byte of the letter R is a
    44-byte header followed by one sample per byte; anything else is not
    audio. *)
Definition toy_load (contents : list Byte.byte) (sr : nat) (mono : bool)
  : string + (list Z * nat) :=
  match contents with
  | Byte.x52 :: _ => inr (map sample_of_byte (skipn 44 contents), sr)
  | _ => inl "Format not recognised."
  end.

#[export] Instance zlib : External := {|
  scalar := Z;
  s_zero := 0%Z;
  s_add := Z.add;
  s_div := fun s n => (s / Z.of_nat n)%Z;
  librosa_load := toy_load
|}.

Definition toy_processor : Wav2Vec2Processor :=
  {| proc_call := fun y _ => inr y |}.

(** Two time steps: the first sample and the number of samples, each
    repeated over the feature axis; training adds the noise. *)
Definition toy_hidden (k : Z) (x : list Z) : hidden_state :=
  {| hs_width := 768;
     hs_steps := [repeat (hd 0%Z x + k)%Z 768;
                  repeat (Z.of_nat (List.length x)) 768] |}.

Definition toy_model : Wav2Vec2Model :=
  {| training := true;
     forward_eval := fun x => inr (toy_hidden 0 x);
     forward_train := fun n x => inr (toy_hidden (Z.of_nat n) x) |}.

Definition wav (n : nat) : list Byte.byte :=
  Byte.x52 :: repeat Byte.x04 (n - 1).

Definition text (n : nat) : list Byte.byte := repeat Byte.x61 n.

Definition good_env (contents : list Byte.byte) (n : nat) : env :=
  {| processor_from_pretrained := inr toy_processor;
     model_from_pretrained := inr toy_model;
     audio_read := inr contents;
     noise := n |}.

Definition offline_env (contents : list Byte.byte) : env :=
  {| processor_from_pretrained := inr toy_processor;
     model_from_pretrained := inl "Can't load the model.";
     audio_read := inr contents;
     noise := 0 |}.

Definition ready_world : world :=
  snd (load_model (good_env [] 0) initial_world).

(** A clip of 1600 samples behind its header, and what becomes of it. *)
Definition clip : list Byte.byte := wav 1644.
Definition clip_samples : list Z := map sample_of_byte (skipn 44 clip).
Definition clip_hidden : hidden_state := toy_hidden 0 clip_samples.

(** An upload whose read fails, a processor and an encoder that raise. *)
Definition unreadable_env : env :=
  {| processor_from_pretrained := inr toy_processor;
     model_from_pretrained := inr toy_model;
     audio_read := inl "Connection reset.";
     noise := 0 |}.

Definition broken_processor : Wav2Vec2Processor :=
  {| proc_call := fun _ _ => inl "Processor failed." |}.

Definition broken_model : Wav2Vec2Model :=
  {| training := true;
     forward_eval := fun _ => inl "Out of memory.";
     forward_train := fun _ _ => inl "Out of memory." |}.

Definition broken_processor_env (contents : list Byte.byte) : env :=
  {| processor_from_pretrained := inr broken_processor;
     model_from_pretrained := inr toy_model;
     audio_read := inr contents;
     noise := 0 |}.

Definition broken_model_env (contents : list Byte.byte) : env :=
  {| processor_from_pretrained := inr toy_processor;
     model_from_pretrained := inr broken_model;
     audio_read := inr contents;
     noise := 0 |}.

(** The world a process is in after the given requests. *)
Definition world_after (e0 : env) (es : list env) : world :=
  match snd (serve_all (boot e0) es) with
  | Serving w => w
  | Exited => initial_world
  end.

End Fixture.

(** * Properties *)

Section Proofs.
Context `{External}.

(** ** [load_model], case by case *)

Lemma load_model_warm (e : env) (w : world) (m : Wav2Vec2Model) :
  model w = Some m -> load_model e w = (Ok tt, w).
Proof.
  intros Hm. unfold load_model, bind, get_model. now rewrite Hm.
Qed.

Lemma load_model_cold (e : env) (w : world) :
  model w = None ->
  load_model e w =
  match processor_from_pretrained e with
  | inl msg =>
      (Raise (LibraryError msg),
       {| processor := processor w; model := None;
          trace := FromPretrainedProcessor :: LogInfo loading_msg :: trace w |})
  | inr p =>
      match model_from_pretrained e with
      | inl msg =>
          (Raise (LibraryError msg),
           {| processor := Some p; model := None;
              trace := FromPretrainedModel :: FromPretrainedProcessor
                       :: LogInfo loading_msg :: trace w |})
      | inr m =>
          (Ok tt,
           {| processor := Some p; model := Some (eval m);
              trace := LogInfo loaded_msg :: ModelEval :: FromPretrainedModel
                       :: FromPretrainedProcessor :: LogInfo loading_msg
                       :: trace w |})
      end
  end.
Proof.
  intros Hm.
  unfold load_model, bind, get_model, logger_info, library_call, bind, emit.
  rewrite Hm. cbn.
  destruct (processor_from_pretrained e) as [msg | p]; cbn.
  - now rewrite Hm.
  - destruct (model_from_pretrained e) as [msg | m]; cbn; now rewrite ?Hm.
Qed.

(** A load that returns leaves the model set. *)
Lemma load_model_ok_ready (e : env) (w w' : world) :
  load_model e w = (Ok tt, w') -> exists m, model w' = Some m.
Proof.
  destruct (model w) as [m |] eqn:Hm.
  - rewrite (load_model_warm e w Hm). intros [= <-]. now exists m.
  - rewrite (load_model_cold e w Hm).
    destruct (processor_from_pretrained e); [discriminate |].
    destruct (model_from_pretrained e) as [| m]; [discriminate |].
    intros [= <-]. now exists (eval m).
Qed.

(** C8. Model initialization is idempotent: once a call to [load_model] has
    returned normally, every later call, whatever the outside world would
    answer, returns at once and leaves the whole world as it is: the
    processor and model handles are neither reassigned nor mutated and no
    library call is made. *)
Theorem load_model_idempotent (e : env) (w w' : world) :
  load_model e w = (Ok tt, w') ->
  forall e', load_model e' w' = (Ok tt, w').
Proof.
  intros Hload e'.
  destruct (load_model_ok_ready e w Hload) as [m Hm].
  exact (load_model_warm e' w' Hm).
Qed.

(** C10. The guard of [load_model] looks at the model handle only.  When the
    processor loads and the model does not, the call raises and leaves the
    processor set with the model still unset; the next call runs the whole
    load again and assigns the processor anew, so that the processor has
    been created twice. *)
Theorem load_model_partial_init
    (e1 e2 : env) (w : world) (p1 p2 : Wav2Vec2Processor) (msg : string) :
  model w = None ->
  processor_from_pretrained e1 = inr p1 ->
  model_from_pretrained e1 = inl msg ->
  processor_from_pretrained e2 = inr p2 ->
  let w1 := snd (load_model e1 w) in
  let w2 := snd (load_model e2 w1) in
  fst (load_model e1 w) = Raise (LibraryError msg) /\
  processor w1 = Some p1 /\
  model w1 = None /\
  processor w2 = Some p2 /\
  occurrences FromPretrainedProcessor (trace w2)
  = 2 + occurrences FromPretrainedProcessor (trace w).
Proof.
  intros Hm Hp1 Hm1 Hp2 w1 w2.
  assert (E1 : load_model e1 w =
               (Raise (LibraryError msg),
                {| processor := Some p1; model := None;
                   trace := FromPretrainedModel :: FromPretrainedProcessor
                            :: LogInfo loading_msg :: trace w |})).
  { rewrite (load_model_cold e1 w Hm), Hp1, Hm1. reflexivity. }
  subst w2 w1. rewrite E1. cbn [fst snd processor model].
  repeat split.
  all: rewrite load_model_cold by reflexivity; rewrite Hp2.
  all: destruct (model_from_pretrained e2); reflexivity.
Qed.

(** Loading the model makes none of the calls of request handling. *)
Lemma load_model_request_events (e : env) (w : world) (ev : event) :
  request_event ev = true ->
  occurrences ev (trace (snd (load_model e w))) = occurrences ev (trace w).
Proof.
  intros Hev. destruct (model w) as [m |] eqn:Hm.
  - now rewrite (load_model_warm e w Hm).
  - rewrite (load_model_cold e w Hm).
    destruct (processor_from_pretrained e);
      [| destruct (model_from_pretrained e)];
      destruct ev; try discriminate Hev; reflexivity.
Qed.

(** ** [embed], stage by stage *)

Lemma embed_load_fails (e : env) (w w' : world) (x : exn) :
  load_model e w = (Raise x, w') -> embed e w = (Raise x, w').
Proof.
  intros Hload. unfold embed, bind at 1. now rewrite Hload.
Qed.

Lemma embed_read_fails (e : env) (w w1 : world) (msg : string) :
  load_model e w = (Ok tt, w1) ->
  audio_read e = inl msg ->
  embed e w = (Raise (HTTPException 400 ("Failed to read upload: " ++ msg)),
               logged [AudioRead] w1).
Proof.
  intros Hload Hread. unfold embed, bind at 1. rewrite Hload.
  unfold bind, try_except, library_call, bind, emit. now rewrite Hread.
Qed.

Lemma embed_too_short (e : env) (w w1 : world) (contents : list Byte.byte) :
  load_model e w = (Ok tt, w1) ->
  audio_read e = inr contents ->
  List.length contents < 1000 ->
  embed e w = (Raise (HTTPException 400 "Audio file too short"),
               logged [AudioRead] w1).
Proof.
  intros Hload Hread Hlen. unfold embed, bind at 1. rewrite Hload.
  unfold bind at 1, try_except at 1, library_call at 1, bind at 1, emit at 1.
  rewrite Hread. cbn [ret].
  apply Nat.ltb_lt in Hlen. now rewrite Hlen.
Qed.

Lemma embed_decode_fails
    (e : env) (w w1 : world) (contents : list Byte.byte) (msg : string) :
  load_model e w = (Ok tt, w1) ->
  audio_read e = inr contents ->
  1000 <= List.length contents ->
  librosa_load contents TARGET_SR true = inl msg ->
  embed e w = (Raise (HTTPException 400 ("Invalid audio: " ++ msg)),
               logged [LibrosaLoad; AudioRead] w1).
Proof.
  intros Hload Hread Hlen Hdec. unfold embed, bind at 1. rewrite Hload.
  unfold bind at 1, try_except at 1, library_call at 1, bind at 1, emit at 1.
  rewrite Hread. cbn [ret].
  apply Nat.ltb_ge in Hlen. rewrite Hlen.
  unfold bind, try_except, library_call, bind, emit. now rewrite Hdec.
Qed.

Lemma embed_decoded_short
    (e : env) (w w1 : world) (contents : list Byte.byte)
    (y : list scalar) (sr : nat) :
  load_model e w = (Ok tt, w1) ->
  audio_read e = inr contents ->
  1000 <= List.length contents ->
  librosa_load contents TARGET_SR true = inr (y, sr) ->
  List.length y < 1600 ->
  embed e w = (Raise (HTTPException 400 "Audio too short after load"),
               logged [LibrosaLoad; AudioRead] w1).
Proof.
  intros Hload Hread Hlen Hdec Hy. unfold embed, bind at 1. rewrite Hload.
  unfold bind at 1, try_except at 1, library_call at 1, bind at 1, emit at 1.
  rewrite Hread. cbn [ret].
  apply Nat.ltb_ge in Hlen. rewrite Hlen.
  unfold bind at 1, try_except, library_call, bind at 1, emit.
  rewrite Hdec. cbn [ret fst].
  apply Nat.ltb_lt in Hy. now rewrite Hy.
Qed.

Lemma embed_infers
    (e : env) (w w1 : world) (contents : list Byte.byte)
    (y : list scalar) (sr : nat) :
  load_model e w = (Ok tt, w1) ->
  audio_read e = inr contents ->
  1000 <= List.length contents ->
  librosa_load contents TARGET_SR true = inr (y, sr) ->
  1600 <= List.length y ->
  embed e w = infer e y (logged [LibrosaLoad; AudioRead] w1).
Proof.
  intros Hload Hread Hlen Hdec Hy. unfold embed, bind at 1. rewrite Hload.
  unfold bind at 1, try_except at 1, library_call at 1, bind at 1, emit at 1.
  rewrite Hread. cbn [ret].
  apply Nat.ltb_ge in Hlen. rewrite Hlen.
  unfold bind at 1, try_except, library_call, bind at 1, emit.
  rewrite Hdec. cbn [ret fst].
  apply Nat.ltb_ge in Hy. now rewrite Hy.
Qed.

Lemma infer_ok
    (e : env) (w : world) (y x : list scalar)
    (p : Wav2Vec2Processor) (m : Wav2Vec2Model) (h : hidden_state) :
  processor w = Some p ->
  model w = Some m ->
  proc_call p y TARGET_SR = inr x ->
  forward m (noise e) x = inr h ->
  infer e y w =
  (Ok {| embedding := mean_dim1 h; dim := List.length (mean_dim1 h) |},
   logged [ModelForward; ProcessorCall] w).
Proof.
  intros Hp Hm Hx Hh.
  unfold infer, call_processor, call_model, bind, get_processor, get_model,
    library_call, bind, emit.
  rewrite Hp, Hx. cbn. rewrite Hm, Hh. cbn. unfold logged. cbn.
  now rewrite Hm.
Qed.

(** ** Every way the inference block can end *)

Lemma infer_cases (e : env) (y : list scalar) (w : world) :
  (processor w = None /\
   infer e y w
   = (Raise (TypeError "'NoneType' object is not callable"), w)) \/
  (exists p msg,
     processor w = Some p /\ proc_call p y TARGET_SR = inl msg /\
     infer e y w = (Raise (LibraryError msg), logged [ProcessorCall] w)) \/
  (exists p x,
     processor w = Some p /\ proc_call p y TARGET_SR = inr x /\
     model w = None /\
     infer e y w
     = (Raise (TypeError "'NoneType' object is not callable"),
        logged [ProcessorCall] w)) \/
  (exists p x m msg,
     processor w = Some p /\ proc_call p y TARGET_SR = inr x /\
     model w = Some m /\ forward m (noise e) x = inl msg /\
     infer e y w
     = (Raise (LibraryError msg), logged [ModelForward; ProcessorCall] w)) \/
  (exists p x m h,
     processor w = Some p /\ proc_call p y TARGET_SR = inr x /\
     model w = Some m /\ forward m (noise e) x = inr h /\
     infer e y w
     = (Ok {| embedding := mean_dim1 h; dim := List.length (mean_dim1 h) |},
        logged [ModelForward; ProcessorCall] w)).
Proof.
  destruct (processor w) as [p |] eqn:Hp.
  2: { left. split; [reflexivity |].
       unfold infer, call_processor, bind, get_processor. now rewrite Hp. }
  right.
  destruct (proc_call p y TARGET_SR) as [msg | x] eqn:Hx.
  { left. exists p, msg. repeat split; try assumption.
    unfold infer, call_processor, bind, get_processor, library_call, bind, emit.
    rewrite Hp, Hx. reflexivity. }
  right.
  destruct (model w) as [m |] eqn:Hm.
  2: { left. exists p, x. repeat split; try assumption.
       unfold infer, call_processor, call_model, bind, get_processor,
         get_model, library_call, bind, emit.
       rewrite Hp, Hx. cbn. unfold logged. cbn. now rewrite !Hm. }
  right.
  destruct (forward m (noise e) x) as [msg | h] eqn:Hh.
  - left. exists p, x, m, msg. repeat split; try assumption.
    unfold infer, call_processor, call_model, bind, get_processor,
      get_model, library_call, bind, emit.
    rewrite Hp, Hx. cbn. rewrite Hm, Hh. cbn. unfold logged. cbn.
    now rewrite Hm.
  - right. exists p, x, m, h. repeat split; try assumption.
    now apply infer_ok with (x := x) (p := p) (m := m).
Qed.

(** ** What a computation records *)

Lemma logged_nil (w : world) : logged [] w = w.
Proof. now destruct w. Qed.

Lemma logged_app (a b : list event) (w : world) :
  logged a (logged b w) = logged (a ++ b) w.
Proof. unfold logged. cbn. now rewrite app_assoc. Qed.

Lemma event_eqb_eq (a b : event) : event_eqb a b = true -> a = b.
Proof.
  destruct a, b; cbn; try discriminate; try reflexivity.
  intros Heq. apply String.eqb_eq in Heq. now subst.
Qed.

Lemma occurrences_app (ev : event) (a b : list event) :
  occurrences ev (a ++ b) = occurrences ev a + occurrences ev b.
Proof. unfold occurrences. now rewrite filter_app, length_app. Qed.

Lemma occurrences_none (P : event -> bool) (ev : event) (tr : list event) :
  forallb P tr = true -> P ev = false -> occurrences ev tr = 0.
Proof.
  intros Hall Hev. induction tr as [| x tr IH]; [reflexivity |].
  cbn in Hall. apply andb_true_iff in Hall as [Hx Htr].
  unfold occurrences in *. cbn.
  destruct (event_eqb ev x) eqn:Heq.
  - apply event_eqb_eq in Heq. subst x. congruence.
  - now apply IH.
Qed.

Lemma occurrences_logged
    (P : event -> bool) (ev : event) (tr : list event) (w : world) :
  forallb P tr = true -> P ev = false ->
  occurrences ev (trace (logged tr w)) = occurrences ev (trace w).
Proof.
  intros Hall Hev. unfold logged. cbn [trace]. rewrite occurrences_app.
  now rewrite (occurrences_none P ev tr Hall Hev).
Qed.

Section EmitsOnly.

Variable P : event -> bool.

Lemma emits_ret {A} (a : A) : emits_only P (ret a).
Proof. intros w. exists []. now rewrite logged_nil. Qed.

Lemma emits_raise {A} (x : exn) : emits_only P (raise (A:=A) x).
Proof. intros w. exists []. now rewrite logged_nil. Qed.

Lemma emits_get_processor : emits_only P get_processor.
Proof. intros w. exists []. now rewrite logged_nil. Qed.

Lemma emits_get_model : emits_only P get_model.
Proof. intros w. exists []. now rewrite logged_nil. Qed.

Lemma emits_emit (ev : event) : P ev = true -> emits_only P (emit ev).
Proof. intros Hev w. exists [ev]. cbn. now rewrite Hev. Qed.

Lemma emits_bind {A B} (m : M A) (k : A -> M B) :
  emits_only P m -> (forall a, emits_only P (k a)) ->
  emits_only P (bind m k).
Proof.
  intros Hm Hk w. unfold bind.
  destruct (Hm w) as [tr1 [E1 H1]].
  destruct (m w) as [[a | x] w1]; cbn [snd] in *; subst w1.
  - destruct (Hk a (logged tr1 w)) as [tr2 [E2 H2]].
    exists (tr2 ++ tr1)%list. rewrite E2, logged_app, forallb_app.
    now rewrite H1, H2.
  - now exists tr1.
Qed.

Lemma emits_try_except {A} (m : M A) (k : exn -> M A) :
  emits_only P m -> (forall x, emits_only P (k x)) ->
  emits_only P (try_except m k).
Proof.
  intros Hm Hk w. unfold try_except.
  destruct (Hm w) as [tr1 [E1 H1]].
  destruct (m w) as [[a | x] w1]; cbn [snd] in *; subst w1.
  - now exists tr1.
  - destruct (Hk x (logged tr1 w)) as [tr2 [E2 H2]].
    exists (tr2 ++ tr1)%list. rewrite E2, logged_app, forallb_app.
    now rewrite H1, H2.
Qed.

Lemma emits_library_call {A} (ev : event) (outcome : string + A) :
  P ev = true -> emits_only P (library_call ev outcome).
Proof.
  intros Hev. apply emits_bind; [now apply emits_emit |].
  intros _. destruct outcome; [apply emits_raise | apply emits_ret].
Qed.

End EmitsOnly.

Lemma infer_emits (e : env) (y : list scalar) :
  emits_only inference_event (infer e y).
Proof.
  unfold infer, call_processor, call_model.
  apply emits_bind.
  { apply emits_bind; [apply emits_get_processor |].
    intros [p |]; [now apply emits_library_call | apply emits_raise]. }
  intros x. apply emits_bind; [| intros h; apply emits_ret].
  apply emits_bind; [apply emits_get_model |].
  intros [m |]; [now apply emits_library_call | apply emits_raise].
Qed.

(** The inference block raises no [HTTPException] of its own. *)
Lemma infer_not_http (e : env) (y : list scalar) (w : world)
    (s : nat) (d : string) :
  fst (infer e y w) <> Raise (HTTPException s d).
Proof.
  unfold infer, call_processor, call_model, bind, get_processor, get_model,
    library_call, bind, emit, ret, raise.
  destruct (processor w) as [p |]; cbn -[TARGET_SR]; [| discriminate].
  destruct (proc_call p y TARGET_SR) as [msg | x]; cbn; [discriminate |].
  destruct (model w) as [m |]; cbn; [| discriminate].
  destruct (forward m (noise e) x); cbn; discriminate.
Qed.

(** ** Mean pooling *)

Lemma row_add_length (a b : list scalar) :
  List.length (row_add a b) = Nat.min (List.length a) (List.length b).
Proof.
  revert b. induction a as [| x a IH]; intros [| y b]; cbn; auto.
Qed.

Lemma row_add_nth (j : nat) (a b : list scalar) :
  j < List.length a -> j < List.length b ->
  nth j (row_add a b) s_zero = s_add (nth j a s_zero) (nth j b s_zero).
Proof.
  revert a b. induction j as [| j IH]; intros [| x a] [| y b]; cbn;
    try lia; auto.
  intros Ha Hb. apply IH; lia.
Qed.

Lemma fold_row_add_length (n : nat) (rows : list (list scalar)) :
  Forall (fun row => List.length row = n) rows ->
  forall acc, List.length acc = n ->
  List.length (fold_left row_add rows acc) = n.
Proof.
  induction 1 as [| row rows Hrow _ IH]; intros acc Hacc; cbn.
  - exact Hacc.
  - apply IH. rewrite row_add_length. lia.
Qed.

Lemma fold_row_add_nth (n j : nat) (rows : list (list scalar)) :
  j < n ->
  Forall (fun row => List.length row = n) rows ->
  forall acc, List.length acc = n ->
  nth j (fold_left row_add rows acc) s_zero
  = fold_left s_add (map (fun row => nth j row s_zero) rows)
      (nth j acc s_zero).
Proof.
  intros Hj. induction 1 as [| row rows Hrow _ IH]; intros acc Hacc; cbn.
  - reflexivity.
  - rewrite IH by (rewrite row_add_length; lia).
    now rewrite row_add_nth by lia.
Qed.

Lemma nth_repeat_zero (j n : nat) : nth j (repeat s_zero n) s_zero = s_zero.
Proof.
  revert j. induction n as [| n IH]; intros [| j]; cbn; auto.
Qed.

Lemma mean_dim1_length (h : hidden_state) :
  Forall (fun row => List.length row = hs_width h) (hs_steps h) ->
  List.length (mean_dim1 h) = hs_width h.
Proof.
  intros Hrows. unfold mean_dim1. rewrite length_map.
  apply fold_row_add_length; [exact Hrows | apply repeat_length].
Qed.

Lemma mean_dim1_nth (h : hidden_state) (j : nat) :
  Forall (fun row => List.length row = hs_width h) (hs_steps h) ->
  j < hs_width h ->
  nth j (mean_dim1 h) s_zero
  = s_div (feature_sum j h) (List.length (hs_steps h)).
Proof.
  intros Hrows Hj. unfold mean_dim1, feature_sum.
  set (total := fold_left row_add (hs_steps h) (repeat s_zero (hs_width h))).
  assert (Hlen : List.length total = hs_width h)
    by (apply fold_row_add_length; [exact Hrows | apply repeat_length]).
  rewrite (nth_indep _ s_zero (s_div s_zero (List.length (hs_steps h))))
    by (rewrite length_map; lia).
  rewrite (map_nth (fun s => s_div s (List.length (hs_steps h))) total s_zero).
  f_equal. subst total.
  rewrite (fold_row_add_nth Hj Hrows) by apply repeat_length.
  now rewrite nth_repeat_zero.
Qed.

Lemma hidden_shape_rows (h : hidden_state) :
  hidden_shape_ok h ->
  Forall (fun row => List.length row = hs_width h) (hs_steps h).
Proof.
  intros [Hw Hrows]. now rewrite Hw.
Qed.

(** ** A request that passes validation and reaches the encoder *)

Section ValidRequest.

Variables (e : env) (w w1 : world).
Variables (p : Wav2Vec2Processor) (m : Wav2Vec2Model).
Variables (contents : list Byte.byte) (y : list scalar) (sr : nat).
Variables (x : list scalar) (h : hidden_state).

Hypothesis load_ok : load_model e w = (Ok tt, w1).
Hypothesis processor_set : processor w1 = Some p.
Hypothesis model_set : model w1 = Some m.
Hypothesis read_ok : audio_read e = inr contents.
Hypothesis enough_bytes : 1000 <= List.length contents.
Hypothesis decode_ok : librosa_load contents TARGET_SR true = inr (y, sr).
Hypothesis enough_samples : 1600 <= List.length y.
Hypothesis processor_ok : proc_call p y TARGET_SR = inr x.
Hypothesis encoder_ok : forward m (noise e) x = inr h.

Lemma embed_valid :
  embed e w =
  (Ok {| embedding := mean_dim1 h; dim := List.length (mean_dim1 h) |},
   logged [ModelForward; ProcessorCall; LibrosaLoad; AudioRead] w1).
Proof.
  rewrite (embed_infers e w load_ok read_ok enough_bytes decode_ok
             enough_samples).
  erewrite infer_ok;
    [reflexivity | exact processor_set | exact model_set
     | exact processor_ok | exact encoder_ok].
Qed.

(** C1. An upload that passes validation ([load_model] returns, the upload
    is read and has at least 1000 bytes, it decodes to at least 1600 samples)
    and for which the processor and the encoder return a hidden state of
    the checkpoint's shape (any number of time steps, 768 features each) is
    answered with a body whose vector has exactly 768 elements and whose
    [dim] field is the length of that vector. *)
Theorem embed_returns_768 :
  hidden_shape_ok h ->
  exists vec,
    fst (embed e w) = Ok {| embedding := vec; dim := List.length vec |} /\
    List.length vec = 768 /\
    respond (fst (embed e w))
    = Http200 {| embedding := vec; dim := 768 |}.
Proof.
  intros Hshape. exists (mean_dim1 h).
  assert (Hlen : List.length (mean_dim1 h) = 768).
  { rewrite (mean_dim1_length h (hidden_shape_rows Hshape)).
    exact (proj1 Hshape). }
  rewrite embed_valid. cbn [fst respond]. rewrite Hlen. auto.
Qed.

(** C4. For a request that reaches the encoder, with a hidden state of
    shape (time steps, 768), the returned embedding is the mean over the
    time axis: component [j] is the sum of feature [j] over all time steps
    divided by the number of time steps. *)
Theorem embed_mean_pools :
  hidden_shape_ok h ->
  exists body,
    fst (embed e w) = Ok body /\
    forall j, j < 768 ->
      nth j (embedding body) s_zero
      = s_div (fold_left s_add
                 (map (fun row => nth j row s_zero) (hs_steps h)) s_zero)
              (List.length (hs_steps h)).
Proof.
  intros Hshape. eexists. split.
  - rewrite embed_valid. reflexivity.
  - intros j Hj. cbn [embedding].
    apply (mean_dim1_nth h (hidden_shape_rows Hshape)).
    now rewrite (proj1 Hshape).
Qed.

End ValidRequest.

(** ** [embed] is [load_model] followed by request handling *)

Lemma emits_weaken {A} (P Q : event -> bool) (m : M A) :
  (forall ev, P ev = true -> Q ev = true) ->
  emits_only P m -> emits_only Q m.
Proof.
  intros HPQ Hm w. destruct (Hm w) as [tr [Etr Htr]].
  exists tr. split; [exact Etr |].
  rewrite forallb_forall in *. auto.
Qed.

Lemma embed_after_load (e : env) :
  exists K : M embed_body,
    emits_only request_event K /\
    forall w, embed e w = bind (load_model e) (fun _ => K) w.
Proof.
  eexists. split; cycle 1.
  - intros w. unfold embed. reflexivity.
  - apply emits_bind.
    { apply emits_try_except; [now apply emits_library_call |].
      intros x. apply emits_raise. }
    intros contents.
    destruct (List.length contents <? 1000)%nat; [apply emits_raise |].
    apply emits_bind.
    { apply emits_try_except; [now apply emits_library_call |].
      intros x. apply emits_raise. }
    intros loaded.
    destruct (List.length (fst loaded) <? 1600)%nat; [apply emits_raise |].
    apply emits_weaken with (P := inference_event); [| apply infer_emits].
    now intros [].
Qed.

(** The world after [embed] is the world after [load_model], with the calls
    of request handling recorded on top. *)
Lemma embed_world (e : env) (w : world) :
  exists tr,
    snd (embed e w) = logged tr (snd (load_model e w)) /\
    forallb request_event tr = true.
Proof.
  destruct (embed_after_load e) as [K [HK Hemb]].
  rewrite Hemb. unfold bind.
  destruct (load_model e w) as [[u | x] w1]; cbn [snd].
  - apply HK.
  - exists []. now rewrite logged_nil.
Qed.

(** ** Validation *)

Lemma load_ok_counts (e : env) (w w1 : world) (r : result unit) (ev : event) :
  load_model e w = (r, w1) ->
  request_event ev = true ->
  occurrences ev (trace w1) = occurrences ev (trace w).
Proof.
  intros Hload Hev.
  rewrite <- (load_model_request_events e w ev Hev). now rewrite Hload.
Qed.

(** C2. When [load_model] returns (the model was loaded before or loads
    now) and the upload is read: an upload of fewer than 1000 bytes is rejected with the 400 error "Audio file too short" and the
    decoder is not called; an upload of 1000 bytes or more is not rejected
    by this check and the decoder is called on it, once. *)
Theorem embed_byte_threshold
    (e : env) (w w1 : world) (contents : list Byte.byte) :
  load_model e w = (Ok tt, w1) ->
  audio_read e = inr contents ->
  (List.length contents < 1000 ->
   fst (embed e w) = Raise (HTTPException 400 "Audio file too short") /\
   respond (fst (embed e w)) = HttpError 400 "Audio file too short" /\
   occurrences LibrosaLoad (trace (snd (embed e w)))
   = occurrences LibrosaLoad (trace w)) /\
  (1000 <= List.length contents ->
   fst (embed e w) <> Raise (HTTPException 400 "Audio file too short") /\
   occurrences LibrosaLoad (trace (snd (embed e w)))
   = 1 + occurrences LibrosaLoad (trace w)).
Proof.
  intros Hload Hread.
  pose proof (load_ok_counts e w LibrosaLoad Hload eq_refl) as Hcount.
  split; intros Hlen.
  - rewrite (embed_too_short e w Hload Hread Hlen). cbn [fst snd respond].
    repeat split. exact Hcount.
  - destruct (librosa_load contents TARGET_SR true) as [msg | [y sr]] eqn:Hdec.
    + rewrite (embed_decode_fails e w Hload Hread Hlen Hdec).
      cbn [fst snd]. split; [discriminate |].
      rewrite <- Hcount. reflexivity.
    + destruct (Nat.lt_ge_cases (List.length y) 1600) as [Hy | Hy].
      * rewrite (embed_decoded_short e w Hload Hread Hlen Hdec Hy).
        cbn [fst snd]. split; [discriminate |].
        rewrite <- Hcount. reflexivity.
      * rewrite (embed_infers e w Hload Hread Hlen Hdec Hy).
        split; [apply infer_not_http |].
        destruct (infer_emits e y (logged [LibrosaLoad; AudioRead] w1))
          as [tr [Etr Htr]].
        rewrite Etr, (occurrences_logged inference_event LibrosaLoad tr _ Htr)
          by reflexivity.
        rewrite <- Hcount. reflexivity.
Qed.

(** C3. When [load_model] returns and the upload is read, has 1000 bytes or
    more and decodes: a buffer of fewer than 1600 samples is rejected with
    the 400 error "Audio too short after load" and neither the processor nor
    the encoder is called.  With 1600 samples or more the request goes on to
    inference: it is not answered with a 400 at all, the processor is called
    on the buffer, once, and when it returns the encoder is called on its
    output, once, and decides the outcome: the pooled embedding when it
    returns, its exception when it raises. *)
Theorem embed_sample_threshold
    (e : env) (w w1 : world) (contents : list Byte.byte)
    (y : list scalar) (sr : nat) :
  load_model e w = (Ok tt, w1) ->
  audio_read e = inr contents ->
  1000 <= List.length contents ->
  librosa_load contents TARGET_SR true = inr (y, sr) ->
  (List.length y < 1600 ->
   fst (embed e w) = Raise (HTTPException 400 "Audio too short after load") /\
   respond (fst (embed e w)) = HttpError 400 "Audio too short after load" /\
   occurrences ProcessorCall (trace (snd (embed e w)))
   = occurrences ProcessorCall (trace w) /\
   occurrences ModelForward (trace (snd (embed e w)))
   = occurrences ModelForward (trace w)) /\
  (1600 <= List.length y ->
   embed e w = infer e y (logged [LibrosaLoad; AudioRead] w1) /\
   (forall s d, fst (embed e w) <> Raise (HTTPException s d)) /\
   forall p, processor w1 = Some p ->
     occurrences ProcessorCall (trace (snd (embed e w)))
     = 1 + occurrences ProcessorCall (trace w) /\
     (forall msg, proc_call p y TARGET_SR = inl msg ->
        fst (embed e w) = Raise (LibraryError msg) /\
        occurrences ModelForward (trace (snd (embed e w)))
        = occurrences ModelForward (trace w)) /\
     (forall m x,
        model w1 = Some m ->
        proc_call p y TARGET_SR = inr x ->
        occurrences ModelForward (trace (snd (embed e w)))
        = 1 + occurrences ModelForward (trace w) /\
        fst (embed e w)
        = match forward m (noise e) x with
          | inl msg => Raise (LibraryError msg)
          | inr h =>
              Ok {| embedding := mean_dim1 h;
                    dim := List.length (mean_dim1 h) |}
          end)).
Proof.
  intros Hload Hread Hlen Hdec.
  pose proof (load_ok_counts e w ProcessorCall Hload eq_refl) as Hproc.
  pose proof (load_ok_counts e w ModelForward Hload eq_refl) as Hfwd.
  split; intros Hy.
  - rewrite (embed_decoded_short e w Hload Hread Hlen Hdec Hy).
    cbn [fst snd respond]. repeat split.
    + rewrite <- Hproc. reflexivity.
    + rewrite <- Hfwd. reflexivity.
  - rewrite (embed_infers e w Hload Hread Hlen Hdec Hy).
    split; [reflexivity |]. split; [intros s d; apply infer_not_http |].
    intros p Hp. rewrite <- Hproc, <- Hfwd.
    set (w2 := logged [LibrosaLoad; AudioRead] w1).
    assert (Hp2 : processor w2 = Some p) by exact Hp.
    destruct (infer_cases e y w2)
      as [[Hn _] | [(p' & msg' & Hp' & Hx' & E)
         | [(p' & x' & Hp' & Hx' & Hn & E)
         | [(p' & x' & m' & msg' & Hp' & Hx' & Hm' & Hh' & E)
         | (p' & x' & m' & h' & Hp' & Hx' & Hm' & Hh' & E)]]]];
      [congruence | | | |];
      assert (p' = p) by congruence; subst p'; rewrite E; cbn [fst snd].
    + split; [reflexivity |]. split.
      * intros msg Hx. assert (msg' = msg) by congruence. subst msg'.
        split; reflexivity.
      * intros m x _ Hx. congruence.
    + split; [reflexivity |]. split.
      * intros msg Hx. congruence.
      * intros m x Hm _. change (model w2) with (model w1) in Hn. congruence.
    + split; [reflexivity |]. split.
      * intros msg Hx. congruence.
      * intros m x Hm Hx. change (model w2) with (model w1) in Hm'.
        assert (m' = m) by congruence. subst m'.
        assert (x' = x) by congruence. subst x'.
        rewrite Hh'. split; reflexivity.
    + split; [reflexivity |]. split.
      * intros msg Hx. congruence.
      * intros m x Hm Hx. change (model w2) with (model w1) in Hm'.
        assert (m' = m) by congruence. subst m'.
        assert (x' = x) by congruence. subst x'.
        rewrite Hh'. split; reflexivity.
Qed.

(** C7. When [load_model] returns, an upload of 1000 bytes or more on which
    the decoder raises is answered with a 400 error whose detail is "Invalid
    audio: " followed by the decoder's message; it is not a server error,
    and neither the processor nor the encoder is called. *)
Theorem embed_decode_error
    (e : env) (w w1 : world) (contents : list Byte.byte) (msg : string) :
  load_model e w = (Ok tt, w1) ->
  audio_read e = inr contents ->
  1000 <= List.length contents ->
  librosa_load contents TARGET_SR true = inl msg ->
  fst (embed e w) = Raise (HTTPException 400 ("Invalid audio: " ++ msg)) /\
  respond (fst (embed e w)) = HttpError 400 ("Invalid audio: " ++ msg) /\
  respond (fst (embed e w)) <> Http500 /\
  occurrences ProcessorCall (trace (snd (embed e w)))
  = occurrences ProcessorCall (trace w) /\
  occurrences ModelForward (trace (snd (embed e w)))
  = occurrences ModelForward (trace w).
Proof.
  intros Hload Hread Hlen Hdec.
  rewrite (embed_decode_fails e w Hload Hread Hlen Hdec).
  cbn [fst snd respond]. repeat split.
  - discriminate.
  - rewrite <- (load_ok_counts e w ProcessorCall Hload eq_refl). reflexivity.
  - rewrite <- (load_ok_counts e w ModelForward Hload eq_refl). reflexivity.
Qed.

(** C9. [embed] calls [load_model] before it touches the upload.  A call in
    which [load_model] raises ends with that exception, in the world
    [load_model] left: the upload is not read.  For a process whose model
    is not loaded this means: when either download fails the client gets a
    server error and not a 400, however short or unreadable the upload is;
    and when both succeed the model is loaded by the call, even if the
    request is then rejected. *)
Theorem embed_loads_model_first (e : env) (w : world) :
  model w = None ->
  (forall x w', load_model e w = (Raise x, w') ->
     embed e w = (Raise x, w') /\
     occurrences AudioRead (trace (snd (embed e w)))
     = occurrences AudioRead (trace w)) /\
  (forall msg,
     processor_from_pretrained e = inl msg \/
     (exists p, processor_from_pretrained e = inr p /\
                model_from_pretrained e = inl msg) ->
     fst (embed e w) = Raise (LibraryError msg) /\
     respond (fst (embed e w)) = Http500 /\
     occurrences AudioRead (trace (snd (embed e w)))
     = occurrences AudioRead (trace w)) /\
  (forall p m,
     processor_from_pretrained e = inr p ->
     model_from_pretrained e = inr m ->
     fst (load_model e w) = Ok tt /\
     model (snd (embed e w)) = Some (eval m) /\
     occurrences FromPretrainedModel (trace (snd (embed e w)))
     = 1 + occurrences FromPretrainedModel (trace w)).
Proof.
  intros Hm.
  assert (Hfail : forall x w', load_model e w = (Raise x, w') ->
            embed e w = (Raise x, w') /\
            occurrences AudioRead (trace (snd (embed e w)))
            = occurrences AudioRead (trace w)).
  { intros x w' Hload. rewrite (embed_load_fails e w Hload). split; auto.
    cbn [snd]. exact (load_ok_counts e w AudioRead Hload eq_refl). }
  split; [exact Hfail |]. split.
  - intros msg Hcase.
    pose proof (load_model_cold e w Hm) as Hcold.
    destruct Hcase as [Hp | [p [Hp Hmd]]]; rewrite Hp in Hcold;
      [| rewrite Hmd in Hcold];
      destruct (Hfail _ _ Hcold) as [Hemb Hcount];
      rewrite Hemb in *; cbn [fst snd respond] in *; auto.
  - intros p m Hp Hmd.
    pose proof (load_model_cold e w Hm) as Hcold.
    rewrite Hp, Hmd in Hcold. rewrite Hcold. split; [reflexivity |].
    destruct (embed_world e w) as [tr [Etr Htr]].
    rewrite Hcold in Etr. cbn [snd] in Etr. rewrite Etr. split.
    + reflexivity.
    + now rewrite (occurrences_logged request_event FromPretrainedModel tr _ Htr).
Qed.

(** ** Histories *)

(** One call of [load_model] either changes neither handle nor the number
    of completed loads, or takes an unloaded process to a loaded one whose
    model is in inference mode. *)
Lemma load_model_step (e : env) (w : world) :
  (model (snd (load_model e w)) = model w /\
   occurrences ModelEval (trace (snd (load_model e w)))
   = occurrences ModelEval (trace w) /\
   (ready w = true -> processor (snd (load_model e w)) = processor w)) \/
  (model w = None /\
   (exists m, model (snd (load_model e w)) = Some (eval m)) /\
   occurrences ModelEval (trace (snd (load_model e w)))
   = 1 + occurrences ModelEval (trace w)).
Proof.
  destruct (model w) as [m |] eqn:Hm.
  - left. rewrite (load_model_warm e w Hm). cbn [snd]. auto.
  - rewrite (load_model_cold e w Hm). unfold ready. rewrite Hm.
    destruct (processor_from_pretrained e) as [msg | p].
    { left. cbn [snd model trace]. repeat split; discriminate. }
    destruct (model_from_pretrained e) as [msg | m].
    { left. cbn [snd model trace]. repeat split; discriminate. }
    right. cbn [snd model trace]. repeat split. now exists m.
Qed.

Lemma exec_step (w : world) (o : op) :
  (model (exec w o) = model w /\
   occurrences ModelEval (trace (exec w o))
   = occurrences ModelEval (trace w) /\
   (ready w = true -> processor (exec w o) = processor w)) \/
  (model w = None /\
   (exists m, model (exec w o) = Some (eval m)) /\
   occurrences ModelEval (trace (exec w o))
   = 1 + occurrences ModelEval (trace w)).
Proof.
  destruct o as [e | e | e |]; cbn [exec]; try apply load_model_step.
  - destruct (embed_world e w) as [tr [Etr Htr]]. rewrite Etr.
    rewrite (occurrences_logged request_event ModelEval tr _ Htr)
      by reflexivity.
    exact (load_model_step e w).
  - left. auto.
Qed.

(** What holds of every world a process can be in: the number of completed
    loads is one when the model is set and none otherwise, and a model that
    is set is in inference mode. *)
Lemma exec_all_invariant (ops : list op) (w : world) :
  let good w :=
    occurrences ModelEval (trace w) = (if ready w then 1 else 0) /\
    (forall m, model w = Some m -> training m = false) in
  good w -> good (exec_all ops w).
Proof.
  intros good. revert w. unfold exec_all.
  induction ops as [| o ops IH]; intros w Hw; [exact Hw |].
  cbn [fold_left]. apply IH.
  destruct Hw as [Hcount Hmode]. unfold good, ready in *.
  destruct (exec_step w o) as [[Hm [Hc _]] | [Hm [[m Hm'] Hc]]].
  - rewrite Hm, Hc. auto.
  - rewrite Hm', Hc. rewrite Hm in Hcount. rewrite Hcount. split; [reflexivity |].
    now intros m0 [= <-].
Qed.

Lemma reachable_invariant (w : world) :
  reachable w ->
  occurrences ModelEval (trace w) = (if ready w then 1 else 0) /\
  (forall m, model w = Some m -> training m = false).
Proof.
  intros [ops ->]. apply exec_all_invariant. split; [reflexivity |].
  discriminate.
Qed.

(** Once the model is set, no history changes either handle. *)
Lemma exec_all_ready (ops : list op) (w : world) (m : Wav2Vec2Model) :
  model w = Some m ->
  model (exec_all ops w) = Some m /\
  processor (exec_all ops w) = processor w.
Proof.
  revert w. unfold exec_all.
  induction ops as [| o ops IH]; intros w Hm; [auto |].
  cbn [fold_left].
  destruct (exec_step w o) as [[Hm' [_ Hp]] | [Hnone _]]; [| congruence].
  rewrite Hm in Hm'. destruct (IH _ Hm') as [IHm IHp].
  split; [exact IHm |]. rewrite IHp. apply Hp. unfold ready. now rewrite Hm.
Qed.

(** ** Determinism *)

Lemma infer_result_eq
    (e e' : env) (y : list scalar) (w w' : world) (m : Wav2Vec2Model) :
  processor w = processor w' ->
  model w = Some m -> model w' = Some m ->
  training m = false ->
  fst (infer e y w) = fst (infer e' y w').
Proof.
  intros Hp Hm Hm' Hmode.
  unfold infer, call_processor, call_model, bind, get_processor, get_model,
    library_call, bind, emit, ret, raise.
  rewrite <- Hp. destruct (processor w) as [p |]; cbn -[TARGET_SR];
    [| reflexivity].
  destruct (proc_call p y TARGET_SR) as [msg | x]; cbn; [reflexivity |].
  rewrite Hm, Hm'. unfold forward. rewrite Hmode.
  destruct (forward_eval m x); reflexivity.
Qed.

(** C5. [embed] is deterministic.  Two requests that carry the same bytes,
    made against the same loaded processor and model (at any later moment
    of the process, or in another world that holds the same handles), get
    the same outcome, and so the same embedding vector: the outcome depends neither on the requests served
    before nor on the randomness at hand, the model having been put in
    inference mode when it was loaded. *)
Theorem embed_deterministic (e1 e2 : env) (w1 w2 : world) :
  reachable w1 ->
  ready w1 = true ->
  processor w1 = processor w2 ->
  model w1 = model w2 ->
  audio_read e1 = audio_read e2 ->
  fst (embed e1 w1) = fst (embed e2 w2).
Proof.
  intros Hr1 Hready Hp Hm Hread.
  unfold ready in Hready. destruct (model w1) as [m |] eqn:Hm1; [| discriminate].
  symmetry in Hm. rename Hm into Hm2.
  pose proof (proj2 (reachable_invariant Hr1) m Hm1) as Hmode.
  pose proof (load_model_warm e1 w1 Hm1) as L1.
  pose proof (load_model_warm e2 w2 Hm2) as L2.
  destruct (audio_read e1) as [msg | contents] eqn:R1; symmetry in Hread.
  { now rewrite (embed_read_fails e1 w1 L1 R1),
      (embed_read_fails e2 w2 L2 Hread). }
  destruct (Nat.lt_ge_cases (List.length contents) 1000) as [Hlen | Hlen].
  { now rewrite (embed_too_short e1 w1 L1 R1 Hlen),
      (embed_too_short e2 w2 L2 Hread Hlen). }
  destruct (librosa_load contents TARGET_SR true) as [msg | [y sr]] eqn:Hdec.
  { now rewrite (embed_decode_fails e1 w1 L1 R1 Hlen Hdec),
      (embed_decode_fails e2 w2 L2 Hread Hlen Hdec). }
  destruct (Nat.lt_ge_cases (List.length y) 1600) as [Hy | Hy].
  { now rewrite (embed_decoded_short e1 w1 L1 R1 Hlen Hdec Hy),
      (embed_decoded_short e2 w2 L2 Hread Hlen Hdec Hy). }
  rewrite (embed_infers e1 w1 L1 R1 Hlen Hdec Hy),
    (embed_infers e2 w2 L2 Hread Hlen Hdec Hy).
  now apply infer_result_eq with (m := m).
Qed.

(** ** The life of the process *)

Lemma serve_all_exited (es : list env) :
  serve_all Exited es = (repeat None (List.length es), Exited).
Proof.
  induction es as [| e es IH]; [reflexivity |].
  cbn [serve_all serve List.length repeat]. now rewrite IH.
Qed.

Lemma boot_serving (e : env) (w : world) :
  boot e = Serving w -> ready w = true.
Proof.
  unfold boot, startup.
  destruct (load_model e initial_world) as [[[] | x] w0] eqn:Hload;
    [| discriminate].
  intros [= <-]. destruct (load_model_ok_ready e _ Hload) as [m Hm].
  unfold ready. now rewrite Hm.
Qed.

Lemma serve_all_serving (es : list env) (w w' : world) :
  ready w = true ->
  snd (serve_all (Serving w) es) = Serving w' ->
  ready w' = true /\ model w' = model w /\ processor w' = processor w.
Proof.
  revert w. induction es as [| e es IH]; intros w Hready.
  - cbn. intros [= <-]. auto.
  - cbn [serve_all serve].
    destruct (embed e w) as [r w1] eqn:Hemb.
    destruct (serve_all (Serving w1) es) as [rs p'] eqn:Hrest.
    cbn [snd]. intros ->.
    assert (Hw1 : w1 = exec w (OpEmbed e)) by (cbn; now rewrite Hemb).
    unfold ready in Hready.
    destruct (model w) as [m |] eqn:Hm; [| discriminate].
    destruct (exec_all_ready [OpEmbed e] w Hm) as [Hm1 Hp1].
    cbn in Hm1, Hp1. rewrite Hemb in Hm1, Hp1. cbn [snd] in Hm1, Hp1.
    assert (Hready1 : ready w1 = true) by (unfold ready; now rewrite Hm1).
    destruct (IH w1 Hready1) as [Hr' [Hm' Hp']];
      [now rewrite Hrest |].
    rewrite Hm', Hp', Hm1, Hp1. auto.
Qed.

(** C6. A failure to load the model is fatal and the step to Ready is taken
    once and for all.
    - A call of [load_model] that raises leaves the model unset.
    - When a download fails during startup the process exits: it answers
      no POST /embed, however many are sent.
    - A process that serves is Ready, at startup and after every request,
      with the handles it had at startup: no request meets an unloaded
      model.
    - Whatever runs after the model is set (startup, [load_model], [embed],
      the health check, in any order and under any answers from outside)
      leaves the model and processor handles as they are.
    - Over any such history from the start of the process, at most one load
      completes. *)
Theorem model_load_failure_is_fatal :
  (forall e w x w',
     model w = None -> load_model e w = (Raise x, w') -> ready w' = false) /\
  (forall e,
     (forall p m, ~ (processor_from_pretrained e = inr p /\
                     model_from_pretrained e = inr m)) ->
     boot e = Exited /\
     forall es, serve_all (boot e) es
                = (repeat None (List.length es), Exited)) /\
  (forall e es w0 w,
     boot e = Serving w0 ->
     snd (serve_all (boot e) es) = Serving w ->
     ready w = true /\ model w = model w0 /\ processor w = processor w0) /\
  (forall ops w m,
     model w = Some m ->
     model (exec_all ops w) = Some m /\
     processor (exec_all ops w) = processor w) /\
  (forall ops,
     occurrences ModelEval (trace (exec_all ops initial_world)) <= 1).
Proof.
  repeat apply conj.
  - intros e w x w' Hm. rewrite (load_model_cold e w Hm).
    destruct (processor_from_pretrained e) as [msg | p].
    { now intros [= _ <-]. }
    destruct (model_from_pretrained e) as [msg | m]; [| discriminate].
    now intros [= _ <-].
  - intros e Hfail.
    assert (Hboot : boot e = Exited).
    { unfold boot, startup. rewrite (load_model_cold e initial_world eq_refl).
      destruct (processor_from_pretrained e) as [msg | p]; [reflexivity |].
      destruct (model_from_pretrained e) as [msg | m]; [reflexivity |].
      now destruct (Hfail p m). }
    split; [exact Hboot |]. intros es. rewrite Hboot. apply serve_all_exited.
  - intros e es w0 w Hboot. rewrite Hboot.
    apply serve_all_serving. exact (boot_serving e Hboot).
  - intros ops w m. apply exec_all_ready.
  - intros ops.
    assert (Hreach : reachable (exec_all ops initial_world)) by now exists ops.
    destruct (reachable_invariant Hreach) as [Hcount _]. rewrite Hcount.
    destruct (ready _); lia.
Qed.

End Proofs.

(** * The properties at work on the toy instance *)

Import Fixture.

Lemma load_model_idempotent_witness :
  load_model (good_env [] 0) initial_world = (Ok tt, ready_world) /\
  forall e', load_model e' ready_world = (Ok tt, ready_world).
Proof.
  split; [reflexivity |].
  apply (load_model_idempotent (good_env [] 0) initial_world). reflexivity.
Defined.

Lemma load_model_partial_init_witness :
  let w1 := snd (load_model (offline_env []) initial_world) in
  let w2 := snd (load_model (good_env [] 0) w1) in
  fst (load_model (offline_env []) initial_world)
  = Raise (LibraryError "Can't load the model.") /\
  processor w1 = Some toy_processor /\
  model w1 = None /\
  processor w2 = Some toy_processor /\
  occurrences FromPretrainedProcessor (trace w2) = 2.
Proof.
  apply (load_model_partial_init (offline_env []) (good_env [] 0)
           initial_world (p1 := toy_processor) (p2 := toy_processor)
           (msg := "Can't load the model.")); reflexivity.
Defined.

Lemma embed_returns_768_witness :
  exists vec,
    fst (embed (good_env clip 7) initial_world)
    = Ok {| embedding := vec; dim := List.length vec |} /\
    List.length vec = 768 /\
    respond (fst (embed (good_env clip 7) initial_world))
    = Http200 {| embedding := vec; dim := 768 |}.
Proof.
  apply embed_returns_768
    with (w1 := ready_world) (p := toy_processor) (m := eval toy_model)
         (contents := clip) (y := clip_samples) (sr := TARGET_SR)
         (x := clip_samples) (h := clip_hidden).
  - reflexivity.
  - reflexivity.
  - reflexivity.
  - reflexivity.
  - apply Nat.leb_le. reflexivity.
  - reflexivity.
  - apply Nat.leb_le. reflexivity.
  - reflexivity.
  - reflexivity.
  - split; [reflexivity | repeat constructor].
Defined.

Lemma embed_mean_pools_witness :
  exists body,
    fst (embed (good_env clip 7) initial_world) = Ok body /\
    forall j, j < 768 ->
      nth j (embedding body) 0%Z
      = (fold_left Z.add
           (map (fun row => nth j row 0%Z) (hs_steps clip_hidden)) 0
         / Z.of_nat 2)%Z.
Proof.
  apply embed_mean_pools
    with (w1 := ready_world) (p := toy_processor) (m := eval toy_model)
         (contents := clip) (y := clip_samples) (sr := TARGET_SR)
         (x := clip_samples) (h := clip_hidden).
  - reflexivity.
  - reflexivity.
  - reflexivity.
  - reflexivity.
  - apply Nat.leb_le. reflexivity.
  - reflexivity.
  - apply Nat.leb_le. reflexivity.
  - reflexivity.
  - reflexivity.
  - split; [reflexivity | repeat constructor].
Defined.

Lemma embed_byte_threshold_witness :
  (fst (embed (good_env (wav 999) 0) ready_world)
   = Raise (HTTPException 400 "Audio file too short") /\
   respond (fst (embed (good_env (wav 999) 0) ready_world))
   = HttpError 400 "Audio file too short" /\
   occurrences LibrosaLoad
     (trace (snd (embed (good_env (wav 999) 0) ready_world)))
   = occurrences LibrosaLoad (trace ready_world)) /\
  (fst (embed (good_env (wav 1000) 0) ready_world)
   <> Raise (HTTPException 400 "Audio file too short") /\
   occurrences LibrosaLoad
     (trace (snd (embed (good_env (wav 1000) 0) ready_world)))
   = 1 + occurrences LibrosaLoad (trace ready_world)).
Proof.
  split.
  - apply (proj1 (embed_byte_threshold (good_env (wav 999) 0) ready_world
                    (w1 := ready_world) (contents := wav 999)
                    eq_refl eq_refl)).
    apply Nat.ltb_lt. reflexivity.
  - apply (proj2 (embed_byte_threshold (good_env (wav 1000) 0) ready_world
                    (w1 := ready_world) (contents := wav 1000)
                    eq_refl eq_refl)).
    apply Nat.leb_le. reflexivity.
Defined.

Lemma embed_sample_threshold_witness :
  (fst (embed (good_env (wav 1643) 0) ready_world)
   = Raise (HTTPException 400 "Audio too short after load")) /\
  (occurrences ModelForward
     (trace (snd (embed (good_env (wav 1644) 0) ready_world)))
   = 1 + occurrences ModelForward (trace ready_world) /\
   fst (embed (good_env (wav 1644) 0) ready_world)
   = Ok {| embedding := mean_dim1 clip_hidden;
           dim := List.length (mean_dim1 clip_hidden) |}).
Proof.
  split.
  - apply (proj1 (embed_sample_threshold (good_env (wav 1643) 0) ready_world
                    (w1 := ready_world) (contents := wav 1643)
                    (y := map sample_of_byte (skipn 44 (wav 1643)))
                    (sr := TARGET_SR)
                    eq_refl eq_refl
                    (proj1 (Nat.leb_le 1000 1643) eq_refl) eq_refl)).
    apply Nat.ltb_lt. reflexivity.
  - apply (proj2 (proj2 (proj2 (proj2
             (proj2 (embed_sample_threshold
                       (good_env (wav 1644) 0) ready_world
                       (w1 := ready_world) (contents := wav 1644)
                       (y := clip_samples) (sr := TARGET_SR)
                       eq_refl eq_refl
                       (proj1 (Nat.leb_le 1000 1644) eq_refl) eq_refl)
                (proj1 (Nat.leb_le 1600 1600) eq_refl)))
             toy_processor eq_refl))
             (eval toy_model) clip_samples eq_refl eq_refl).
Defined.

Lemma embed_decode_error_witness :
  respond (fst (embed (good_env (text 1200) 0) ready_world))
  = HttpError 400 "Invalid audio: Format not recognised.".
Proof.
  apply (embed_decode_error (good_env (text 1200) 0) ready_world
           (w1 := ready_world) (contents := text 1200)
           (msg := "Format not recognised.")
           eq_refl eq_refl (proj1 (Nat.leb_le 1000 1200) eq_refl) eq_refl).
Defined.

Lemma embed_loads_model_first_witness :
  respond (fst (embed (offline_env (wav 999)) initial_world)) = Http500 /\
  model (snd (embed (good_env (wav 999) 0) initial_world))
  = Some (eval toy_model).
Proof.
  split.
  - apply (proj1 (proj2 (embed_loads_model_first (offline_env (wav 999))
                           initial_world eq_refl))
             "Can't load the model.").
    right. exists toy_processor. split; reflexivity.
  - apply (proj2 (proj2 (embed_loads_model_first (good_env (wav 999) 0)
                           initial_world eq_refl))
             toy_processor toy_model eq_refl eq_refl).
Defined.

Lemma embed_deterministic_witness :
  fst (embed (good_env clip 1) ready_world)
  = fst (embed (good_env clip 2)
           (snd (embed (good_env (text 1200) 3) ready_world))).
Proof.
  apply embed_deterministic.
  - exists [OpStartup (good_env [] 0)]. reflexivity.
  - reflexivity.
  - reflexivity.
  - reflexivity.
  - reflexivity.
Defined.

Lemma model_load_failure_is_fatal_witness :
  boot (offline_env []) = Exited /\
  forall es, serve_all (boot (offline_env [])) es
             = (repeat None (List.length es), Exited).
Proof.
  apply (proj1 (proj2 model_load_failure_is_fatal) (offline_env [])).
  intros p m [_ Hm]. discriminate Hm.
Defined.

(** * Further properties of the handlers *)

Section Outcomes.
Context `{External}.

(** ** Every way request handling can end, once [load_model] has returned *)

Lemma embed_cases (e : env) (w w1 : world) :
  load_model e w = (Ok tt, w1) ->
  (exists msg,
     audio_read e = inl msg /\
     embed e w
     = (Raise (HTTPException 400 ("Failed to read upload: " ++ msg)),
        logged [AudioRead] w1)) \/
  (exists contents,
     audio_read e = inr contents /\ List.length contents < 1000 /\
     embed e w
     = (Raise (HTTPException 400 "Audio file too short"),
        logged [AudioRead] w1)) \/
  (exists contents msg,
     audio_read e = inr contents /\ 1000 <= List.length contents /\
     librosa_load contents TARGET_SR true = inl msg /\
     embed e w
     = (Raise (HTTPException 400 ("Invalid audio: " ++ msg)),
        logged [LibrosaLoad; AudioRead] w1)) \/
  (exists contents y sr,
     audio_read e = inr contents /\ 1000 <= List.length contents /\
     librosa_load contents TARGET_SR true = inr (y, sr) /\
     List.length y < 1600 /\
     embed e w
     = (Raise (HTTPException 400 "Audio too short after load"),
        logged [LibrosaLoad; AudioRead] w1)) \/
  (exists contents y sr,
     audio_read e = inr contents /\ 1000 <= List.length contents /\
     librosa_load contents TARGET_SR true = inr (y, sr) /\
     1600 <= List.length y /\
     embed e w = infer e y (logged [LibrosaLoad; AudioRead] w1)).
Proof.
  intros Hload.
  destruct (audio_read e) as [msg | contents] eqn:Hread.
  { left. exists msg. split; [reflexivity |].
    exact (embed_read_fails e w Hload Hread). }
  right.
  destruct (Nat.lt_ge_cases (List.length contents) 1000) as [Hlen | Hlen].
  { left. exists contents. repeat split; [exact Hlen |].
    exact (embed_too_short e w Hload Hread Hlen). }
  right.
  destruct (librosa_load contents TARGET_SR true) as [msg | [y sr]] eqn:Hdec.
  { left. exists contents, msg. repeat split; [exact Hlen | exact Hdec |].
    exact (embed_decode_fails e w Hload Hread Hlen Hdec). }
  right.
  destruct (Nat.lt_ge_cases (List.length y) 1600) as [Hy | Hy].
  - left. exists contents, y, sr.
    repeat split; [exact Hlen | exact Hdec | exact Hy |].
    exact (embed_decoded_short e w Hload Hread Hlen Hdec Hy).
  - right. exists contents, y, sr.
    repeat split; [exact Hlen | exact Hdec | exact Hy |].
    exact (embed_infers e w Hload Hread Hlen Hdec Hy).
Qed.

(** [load_model] raises nothing but the error of a failed download. *)
Lemma load_model_raises (e : env) (w w' : world) (x : exn) :
  load_model e w = (Raise x, w') ->
  exists msg,
    x = LibraryError msg /\
    (processor_from_pretrained e = inl msg \/
     model_from_pretrained e = inl msg).
Proof.
  destruct (model w) as [m |] eqn:Hm.
  { rewrite (load_model_warm e w Hm). discriminate. }
  rewrite (load_model_cold e w Hm).
  destruct (processor_from_pretrained e) as [msg | p].
  { intros [= <- _]. exists msg. auto. }
  destruct (model_from_pretrained e) as [msg | m]; [| discriminate].
  intros [= <- _]. exists msg. auto.
Qed.

End Outcomes.

Section RequestOutcomes.
Context `{External}.

(** X1. When [load_model] returns and reading the upload raises, the
    request is answered with a 400 error whose detail is "Failed to read
    upload: " followed by the message of the exception; the decoder, the
    processor and the encoder are not called. *)
Theorem embed_read_error (e : env) (w w1 : world) (msg : string) :
  load_model e w = (Ok tt, w1) ->
  audio_read e = inl msg ->
  respond (fst (embed e w))
  = HttpError 400 ("Failed to read upload: " ++ msg) /\
  occurrences LibrosaLoad (trace (snd (embed e w)))
  = occurrences LibrosaLoad (trace w) /\
  occurrences ProcessorCall (trace (snd (embed e w)))
  = occurrences ProcessorCall (trace w) /\
  occurrences ModelForward (trace (snd (embed e w)))
  = occurrences ModelForward (trace w).
Proof.
  intros Hload Hread. rewrite (embed_read_fails e w Hload Hread).
  cbn [fst snd respond]. repeat split.
  - rewrite <- (load_ok_counts e w LibrosaLoad Hload eq_refl). reflexivity.
  - rewrite <- (load_ok_counts e w ProcessorCall Hload eq_refl). reflexivity.
  - rewrite <- (load_ok_counts e w ModelForward Hload eq_refl). reflexivity.
Qed.

(** X2. Nothing catches a failure inside the inference block.  For a
    request that passed both length checks: when the processor raises, the
    call ends with that exception, the client gets a server error and the
    encoder is not called; when the encoder raises, the call ends with that
    exception and the client gets a server error.  Either way the globals
    are those [load_model] left. *)
Theorem embed_inference_error
    (e : env) (w w1 : world) (contents : list Byte.byte)
    (y : list scalar) (sr : nat) (p : Wav2Vec2Processor) :
  load_model e w = (Ok tt, w1) ->
  processor w1 = Some p ->
  audio_read e = inr contents ->
  1000 <= List.length contents ->
  librosa_load contents TARGET_SR true = inr (y, sr) ->
  1600 <= List.length y ->
  (forall msg,
     proc_call p y TARGET_SR = inl msg ->
     embed e w
     = (Raise (LibraryError msg),
        logged [ProcessorCall; LibrosaLoad; AudioRead] w1) /\
     respond (fst (embed e w)) = Http500) /\
  (forall x m msg,
     proc_call p y TARGET_SR = inr x ->
     model w1 = Some m ->
     forward m (noise e) x = inl msg ->
     embed e w
     = (Raise (LibraryError msg),
        logged [ModelForward; ProcessorCall; LibrosaLoad; AudioRead] w1) /\
     respond (fst (embed e w)) = Http500).
Proof.
  intros Hload Hp Hread Hlen Hdec Hy.
  rewrite (embed_infers e w Hload Hread Hlen Hdec Hy).
  set (w2 := logged [LibrosaLoad; AudioRead] w1).
  assert (Hp2 : processor w2 = Some p) by exact Hp.
  split.
  - intros msg Hx.
    destruct (infer_cases e y w2)
      as [[Hn _] | [(p' & msg' & Hp' & Hx' & E) | [(p' & x' & Hp' & Hx' & _)
         | [(p' & x' & m' & msg' & Hp' & Hx' & _)
         | (p' & x' & m' & h' & Hp' & Hx' & _)]]]];
      try congruence.
    assert (p' = p) by congruence. subst p'.
    assert (msg' = msg) by congruence. subst msg'.
    rewrite E. split; reflexivity.
  - intros x m msg Hx Hm Hh.
    assert (Hm2 : model w2 = Some m) by exact Hm.
    destruct (infer_cases e y w2)
      as [[Hn _] | [(p' & msg' & Hp' & Hx' & _) | [(p' & x' & Hp' & Hx' & Hn & _)
         | [(p' & x' & m' & msg' & Hp' & Hx' & Hm' & Hh' & E)
         | (p' & x' & m' & h' & Hp' & Hx' & Hm' & Hh' & _)]]]];
      try congruence.
    assert (p' = p) by congruence. subst p'.
    assert (x' = x) by congruence. subst x'.
    assert (m' = m) by congruence. subst m'.
    assert (msg' = msg) by congruence. subst msg'.
    rewrite E. split; reflexivity.
Qed.

(** X3. Every [HTTPException] that [embed] raises has status 400, and its
    detail is one of four: the upload could not be read, the file is too
    short, the audio is invalid, or the audio is too short after decoding.
    The two details that quote an exception quote the one raised by the
    read, respectively by the decoder. *)
Theorem embed_client_errors (e : env) (w : world) (s : nat) (d : string) :
  fst (embed e w) = Raise (HTTPException s d) ->
  s = 400 /\
  ((exists msg,
      audio_read e = inl msg /\ d = "Failed to read upload: " ++ msg) \/
   d = "Audio file too short" \/
   (exists contents msg,
      audio_read e = inr contents /\
      librosa_load contents TARGET_SR true = inl msg /\
      d = "Invalid audio: " ++ msg) \/
   d = "Audio too short after load").
Proof.
  destruct (load_model e w) as [[[] | x] w1] eqn:Hload.
  2: { rewrite (embed_load_fails e w Hload). cbn [fst].
       destruct (load_model_raises e w Hload) as [msg [-> _]]. discriminate. }
  destruct (embed_cases e w Hload)
    as [(msg & Hread & E) | [(contents & Hread & Hlen & E)
       | [(contents & msg & Hread & Hlen & Hdec & E)
       | [(contents & y & sr & Hread & Hlen & Hdec & Hy & E)
       | (contents & y & sr & Hread & Hlen & Hdec & Hy & E)]]]];
    rewrite E; cbn [fst].
  - intros [= <- <-]. split; [reflexivity |]. left. now exists msg.
  - intros [= <- <-]. auto.
  - intros [= <- <-]. split; [reflexivity |]. right. right. left.
    now exists contents, msg.
  - intros [= <- <-]. auto.
  - intros Hhttp. now destruct (infer_not_http e y _ Hhttp).
Qed.

(** X4. [embed] returns a body only for an upload that passed every check.
    Whenever it returns, the upload was read and has at least 1000 bytes,
    it decoded to at least 1600 samples, the embedding is the mean over
    time of a hidden state, [dim] is the length of the embedding, and the
    process is Ready afterwards. *)
Theorem embed_ok_implies_valid (e : env) (w : world) (body : embed_body) :
  fst (embed e w) = Ok body ->
  dim body = List.length (embedding body) /\
  ready (snd (embed e w)) = true /\
  exists contents y sr h,
    audio_read e = inr contents /\
    1000 <= List.length contents /\
    librosa_load contents TARGET_SR true = inr (y, sr) /\
    1600 <= List.length y /\
    embedding body = mean_dim1 h.
Proof.
  destruct (load_model e w) as [[[] | x] w1] eqn:Hload.
  2: { rewrite (embed_load_fails e w Hload). discriminate. }
  destruct (embed_cases e w Hload)
    as [(msg & Hread & E) | [(contents & Hread & Hlen & E)
       | [(contents & msg & Hread & Hlen & Hdec & E)
       | [(contents & y & sr & Hread & Hlen & Hdec & Hy & E)
       | (contents & y & sr & Hread & Hlen & Hdec & Hy & E)]]]];
    rewrite E; try discriminate.
  destruct (infer_cases e y (logged [LibrosaLoad; AudioRead] w1))
    as [[_ E'] | [(p & msg & _ & _ & E') | [(p & x & _ & _ & _ & E')
       | [(p & x & m & msg & _ & _ & _ & _ & E')
       | (p & x & m & h & _ & _ & Hm & _ & E')]]]];
    rewrite E'; try discriminate.
  cbn [fst snd]. intros [= <-]. cbn [dim embedding].
  split; [reflexivity |]. split.
  - unfold ready. cbn [logged model] in *. now rewrite Hm.
  - exists contents, y, sr, h. auto.
Qed.

(** X5. The stages of a request run in one fixed order, each at most once:
    read the upload, decode, call the processor, call the encoder.  What a
    call of [embed] records on top of [load_model] is always a tail of that
    sequence that contains the read. *)
Theorem embed_pipeline_order (e : env) (w w1 : world) :
  load_model e w = (Ok tt, w1) ->
  exists n,
    n <= 3 /\
    snd (embed e w)
    = logged (skipn n [ModelForward; ProcessorCall; LibrosaLoad; AudioRead])
        w1.
Proof.
  intros Hload.
  destruct (embed_cases e w Hload)
    as [(msg & Hread & E) | [(contents & Hread & Hlen & E)
       | [(contents & msg & Hread & Hlen & Hdec & E)
       | [(contents & y & sr & Hread & Hlen & Hdec & Hy & E)
       | (contents & y & sr & Hread & Hlen & Hdec & Hy & E)]]]];
    rewrite E.
  - exists 3. split; [lia | reflexivity].
  - exists 3. split; [lia | reflexivity].
  - exists 2. split; [lia | reflexivity].
  - exists 2. split; [lia | reflexivity].
  - destruct (infer_cases e y (logged [LibrosaLoad; AudioRead] w1))
      as [[_ E'] | [(p & msg & _ & _ & E') | [(p & x & _ & _ & _ & E')
         | [(p & x & m & msg & _ & _ & _ & _ & E')
         | (p & x & m & h & _ & _ & _ & _ & E')]]]];
      rewrite E'; cbn [snd].
    + exists 2. split; [lia | reflexivity].
    + exists 1. split; [lia |]. now rewrite logged_app.
    + exists 1. split; [lia |]. now rewrite logged_app.
    + exists 0. split; [lia |]. now rewrite logged_app.
    + exists 0. split; [lia |]. now rewrite logged_app.
Qed.

End RequestOutcomes.

Section Lifecycle.
Context `{External}.

(** A call of [load_model] that does not return leaves the model unset. *)
Lemma load_model_raise_unset (e : env) (w : world) :
  (exists x, fst (load_model e w) = Raise x) ->
  model (snd (load_model e w)) = None.
Proof.
  intros [x Hx]. destruct (model w) as [m |] eqn:Hm.
  - rewrite (load_model_warm e w Hm) in Hx. discriminate.
  - rewrite (load_model_cold e w Hm) in *.
    destruct (processor_from_pretrained e) as [msg | p]; [reflexivity |].
    destruct (model_from_pretrained e) as [msg | m]; [reflexivity |].
    discriminate.
Qed.

(** X6. [load_model] returns normally exactly when the process is Ready
    afterwards: a call that raises never leaves the model set, and a call
    that returns never leaves it unset. *)
Theorem load_model_returns_iff_ready (e : env) (w : world) :
  fst (load_model e w) = Ok tt <-> ready (snd (load_model e w)) = true.
Proof.
  unfold ready. destruct (model w) as [m |] eqn:Hm.
  - rewrite (load_model_warm e w Hm). cbn [fst snd]. now rewrite Hm.
  - rewrite (load_model_cold e w Hm).
    destruct (processor_from_pretrained e) as [msg | p];
      [| destruct (model_from_pretrained e) as [msg | m]];
      cbn [fst snd model]; split; (discriminate || reflexivity).
Qed.

(** X7. A failed load is not sticky.  After a call of [load_model] that
    raised, a call for which both downloads succeed returns, sets the
    processor to the one it downloaded and the model to the one it
    downloaded, switched to inference mode. *)
Theorem load_model_recovers
    (e1 e2 : env) (w w1 : world) (x : exn)
    (p2 : Wav2Vec2Processor) (m2 : Wav2Vec2Model) :
  load_model e1 w = (Raise x, w1) ->
  processor_from_pretrained e2 = inr p2 ->
  model_from_pretrained e2 = inr m2 ->
  fst (load_model e2 w1) = Ok tt /\
  processor (snd (load_model e2 w1)) = Some p2 /\
  model (snd (load_model e2 w1)) = Some (eval m2).
Proof.
  intros Hfail Hp2 Hm2.
  assert (Hnone : model w1 = None).
  { pose proof (load_model_raise_unset e1 w) as Haux.
    rewrite Hfail in Haux. apply Haux. now exists x. }
  rewrite (load_model_cold e2 w1 Hnone), Hp2, Hm2. auto.
Qed.

End Lifecycle.

Section Invariants.
Context `{External}.

Lemma exec_all_snoc (ops : list op) (o : op) (w : world) :
  exec_all (ops ++ [o]) w = exec (exec_all ops w) o.
Proof. unfold exec_all. now rewrite fold_left_app. Qed.

Lemma reachable_exec (w : world) (o : op) :
  reachable w -> reachable (exec w o).
Proof.
  intros [ops ->]. exists (ops ++ [o])%list. now rewrite exec_all_snoc.
Qed.

(** The assignments of [load_model] come in one order: a model that is set
    has a processor beside it. *)
Lemma load_model_processor (e : env) (w : world) :
  (ready w = true -> processor w <> None) ->
  ready (snd (load_model e w)) = true ->
  processor (snd (load_model e w)) <> None.
Proof.
  unfold ready. intros Hinv. destruct (model w) as [m |] eqn:Hm.
  - rewrite (load_model_warm e w Hm). cbn [snd]. rewrite Hm. exact Hinv.
  - rewrite (load_model_cold e w Hm).
    destruct (processor_from_pretrained e) as [msg | p];
      [| destruct (model_from_pretrained e) as [msg | m]];
      cbn [snd model processor]; discriminate.
Qed.

Lemma exec_processor (w : world) (o : op) :
  (ready w = true -> processor w <> None) ->
  ready (exec w o) = true -> processor (exec w o) <> None.
Proof.
  intros Hinv. destruct o as [e | e | e |]; cbn [exec];
    try (now apply load_model_processor); [| exact Hinv].
  destruct (embed_world e w) as [tr [-> _]].
  unfold ready. cbn [logged model processor].
  now apply load_model_processor.
Qed.

Lemma reachable_processor (w : world) :
  reachable w -> ready w = true -> processor w <> None.
Proof.
  intros [ops ->]. induction ops as [| o ops IH] using rev_ind.
  - discriminate.
  - rewrite exec_all_snoc. now apply exec_processor.
Qed.

(** X8. In every world the process can be in, a model that is set has a
    processor beside it, although the guard of [load_model] looks at the
    model only.  Hence no call of [embed] ever fails for calling or
    dereferencing an unset global: it raises neither a [TypeError] nor an
    [AttributeError]. *)
Theorem reachable_globals_consistent (w : world) :
  reachable w ->
  (ready w = true -> exists p, processor w = Some p) /\
  forall e msg,
    fst (embed e w) <> Raise (TypeError msg) /\
    fst (embed e w) <> Raise (AttributeError msg).
Proof.
  intros Hreach. split.
  { intros Hready. pose proof (reachable_processor Hreach Hready) as Hp.
    destruct (processor w) as [p |]; [now exists p | congruence]. }
  intros e msg.
  destruct (load_model e w) as [[[] | x] w1] eqn:Hload.
  2: { rewrite (embed_load_fails e w Hload). cbn [fst].
       destruct (load_model_raises e w Hload) as [msg' [-> _]].
       split; discriminate. }
  assert (Hw1 : w1 = exec w (OpLoadModel e)) by (cbn [exec]; now rewrite Hload).
  assert (Hready1 : ready w1 = true).
  { destruct (load_model_ok_ready e w Hload) as [m Hm].
    unfold ready. now rewrite Hm. }
  assert (Hp1 : processor w1 <> None).
  { apply reachable_processor; [| exact Hready1].
    rewrite Hw1. now apply reachable_exec. }
  destruct (embed_cases e w Hload)
    as [(msg' & _ & E) | [(contents & _ & _ & E)
       | [(contents & msg' & _ & _ & _ & E)
       | [(contents & y & sr & _ & _ & _ & _ & E)
       | (contents & y & sr & _ & _ & _ & _ & E)]]]];
    rewrite E; cbn [fst]; try (split; discriminate).
  destruct (infer_cases e y (logged [LibrosaLoad; AudioRead] w1))
    as [[Hn _] | [(p & msg' & _ & _ & E') | [(p & x & _ & _ & Hn & _)
       | [(p & x & m & msg' & _ & _ & _ & _ & E')
       | (p & x & m & h & _ & _ & _ & _ & E')]]]];
    try (rewrite E'; cbn [fst]; split; discriminate).
  - now destruct Hp1.
  - unfold ready in Hready1. cbn [logged model] in Hn.
    rewrite Hn in Hready1. discriminate.
Qed.

(** X9. Every model a process can hold is in inference mode, in whatever
    mode the checkpoint was delivered: its forward pass gives the same
    result whatever the randomness at hand. *)
Theorem reachable_model_in_eval_mode (w : world) (m : Wav2Vec2Model) :
  reachable w ->
  model w = Some m ->
  training m = false /\
  forall n1 n2 x, forward m n1 x = forward m n2 x.
Proof.
  intros Hreach Hm.
  pose proof (proj2 (reachable_invariant Hreach) m Hm) as Hmode.
  split; [exact Hmode |]. intros n1 n2 x. unfold forward. now rewrite Hmode.
Qed.

(** ** The serving process *)

Lemma boot_world (e : env) (w0 : world) :
  boot e = Serving w0 ->
  exists p m,
    processor_from_pretrained e = inr p /\
    model_from_pretrained e = inr m /\
    w0 = {| processor := Some p; model := Some (eval m);
            trace := [LogInfo loaded_msg; ModelEval; FromPretrainedModel;
                      FromPretrainedProcessor; LogInfo loading_msg] |}.
Proof.
  unfold boot, startup. rewrite (load_model_cold e initial_world eq_refl).
  destruct (processor_from_pretrained e) as [msg | p]; [discriminate |].
  destruct (model_from_pretrained e) as [msg | m]; [discriminate |].
  intros [= <-]. now exists p, m.
Qed.

Lemma serve_all_trace (es : list env) (w w' : world) :
  ready w = true ->
  snd (serve_all (Serving w) es) = Serving w' ->
  exists tr, w' = logged tr w /\ forallb request_event tr = true.
Proof.
  revert w. induction es as [| e es IH]; intros w Hready.
  - cbn. intros [= <-]. exists []. now rewrite logged_nil.
  - cbn [serve_all serve].
    destruct (embed e w) as [r w1] eqn:Hemb.
    destruct (serve_all (Serving w1) es) as [rs p'] eqn:Hrest.
    cbn [snd]. intros ->.
    unfold ready in Hready.
    destruct (model w) as [m |] eqn:Hm; [| discriminate].
    destruct (embed_world e w) as [tr1 [E1 H1]].
    rewrite Hemb, (load_model_warm e w Hm) in E1. cbn [snd] in E1. subst w1.
    destruct (IH (logged tr1 w)) as [tr2 [E2 H2]].
    + unfold ready. cbn [logged model]. now rewrite Hm.
    + now rewrite Hrest.
    + exists (tr2 ++ tr1)%list. rewrite E2, logged_app, forallb_app.
      now rewrite H1, H2.
Qed.

(** X10. A serving process never goes back to the model storage: however
    many requests it has answered, each of the two checkpoints has been
    downloaded exactly once and the model has been switched to inference
    mode exactly once, all at startup. *)
Theorem serving_never_reloads (e0 : env) (es : list env) (w0 w : world) :
  boot e0 = Serving w0 ->
  snd (serve_all (boot e0) es) = Serving w ->
  occurrences FromPretrainedProcessor (trace w) = 1 /\
  occurrences FromPretrainedModel (trace w) = 1 /\
  occurrences ModelEval (trace w) = 1.
Proof.
  intros Hboot. rewrite Hboot. intros Hserve.
  destruct (serve_all_trace es w0 (boot_serving e0 Hboot) Hserve)
    as [tr [-> Htr]].
  destruct (boot_world e0 Hboot) as (p & m & _ & _ & ->).
  repeat split.
  - now rewrite (occurrences_logged request_event _ tr _ Htr).
  - now rewrite (occurrences_logged request_event _ tr _ Htr).
  - now rewrite (occurrences_logged request_event _ tr _ Htr).
Qed.

Lemma embed_same_handles
    (e1 e2 : env) (w1 w2 : world) (m : Wav2Vec2Model) :
  processor w1 = processor w2 ->
  model w1 = Some m -> model w2 = Some m ->
  training m = false ->
  audio_read e1 = audio_read e2 ->
  fst (embed e1 w1) = fst (embed e2 w2).
Proof.
  intros Hp Hm1 Hm2 Hmode Hread.
  pose proof (load_model_warm e1 w1 Hm1) as L1.
  pose proof (load_model_warm e2 w2 Hm2) as L2.
  destruct (embed_cases e1 w1 L1)
    as [(msg & R1 & E) | [(contents & R1 & Hlen & E)
       | [(contents & msg & R1 & Hlen & Hdec & E)
       | [(contents & y & sr & R1 & Hlen & Hdec & Hy & E)
       | (contents & y & sr & R1 & Hlen & Hdec & Hy & E)]]]];
    rewrite E; rewrite R1 in Hread; symmetry in Hread.
  - now rewrite (embed_read_fails e2 w2 L2 Hread).
  - now rewrite (embed_too_short e2 w2 L2 Hread Hlen).
  - now rewrite (embed_decode_fails e2 w2 L2 Hread Hlen Hdec).
  - now rewrite (embed_decoded_short e2 w2 L2 Hread Hlen Hdec Hy).
  - rewrite (embed_infers e2 w2 L2 Hread Hlen Hdec Hy).
    now apply infer_result_eq with (m := m).
Qed.

Lemma serve_all_stateless (w0 : world) (m : Wav2Vec2Model) :
  model w0 = Some m -> training m = false ->
  forall es w,
    model w = Some m -> processor w = processor w0 ->
    map (option_map (fun r => (status_of r, body_of r)))
      (fst (serve_all (Serving w) es))
    = map (fun e => Some (status_of (respond (fst (embed e w0))),
                          body_of (respond (fst (embed e w0))))) es.
Proof.
  intros Hm0 Hmode. induction es as [| e es IH]; intros w Hm Hp.
  - reflexivity.
  - cbn [serve_all serve map].
    destruct (embed e w) as [r w1] eqn:Hemb.
    destruct (exec_all_ready [OpEmbed e] w Hm) as [Hm1 Hp1].
    cbn in Hm1, Hp1. rewrite Hemb in Hm1, Hp1. cbn [snd] in Hm1, Hp1.
    specialize (IH w1 Hm1 (eq_trans Hp1 Hp)).
    destruct (serve_all (Serving w1) es) as [rs p']. cbn [fst map] in *.
    rewrite IH. f_equal. cbn [option_map].
    assert (Hr : r = fst (embed e w0)).
    { change r with (fst (r, w1)). rewrite <- Hemb.
      now apply embed_same_handles with (m := m). }
    now rewrite Hr.
Qed.

(** X11. Serving keeps no state between requests as far as the status and
    the returned body go.  In the answers of a process to any sequence of
    requests, each request gets the status code and, when the status is
    200, the body it would get alone, right after startup: no request,
    accepted or rejected, changes the status or the embedding of a later
    one.  (The detail text of an error answer is left out of the
    comparison.) *)
Theorem serving_status_and_body_stateless
    (e0 : env) (w0 : world) (es : list env) :
  boot e0 = Serving w0 ->
  map (option_map (fun r => (status_of r, body_of r)))
    (fst (serve_all (boot e0) es))
  = map (fun e => Some (status_of (respond (fst (embed e w0))),
                        body_of (respond (fst (embed e w0))))) es.
Proof.
  intros Hboot. rewrite Hboot.
  destruct (boot_world e0 Hboot) as (p & m & _ & _ & Hw0).
  apply serve_all_stateless with (m := eval m);
    try reflexivity; now rewrite Hw0.
Qed.

End Invariants.

(** * The further properties at work on the toy instance *)

Lemma embed_read_error_witness :
  respond (fst (embed unreadable_env ready_world))
  = HttpError 400 "Failed to read upload: Connection reset." /\
  occurrences LibrosaLoad (trace (snd (embed unreadable_env ready_world)))
  = occurrences LibrosaLoad (trace ready_world) /\
  occurrences ProcessorCall (trace (snd (embed unreadable_env ready_world)))
  = occurrences ProcessorCall (trace ready_world) /\
  occurrences ModelForward (trace (snd (embed unreadable_env ready_world)))
  = occurrences ModelForward (trace ready_world).
Proof.
  apply (embed_read_error unreadable_env ready_world (w1 := ready_world)
           (msg := "Connection reset.") eq_refl eq_refl).
Defined.

Lemma embed_inference_error_witness :
  respond (fst (embed (broken_processor_env clip) initial_world)) = Http500 /\
  respond (fst (embed (broken_model_env clip) initial_world)) = Http500.
Proof.
  split.
  - apply (proj1 (embed_inference_error
                    (broken_processor_env clip) initial_world
                    (w1 := snd (load_model (broken_processor_env clip)
                                  initial_world))
                    (contents := clip) (y := clip_samples) (sr := TARGET_SR)
                    (p := broken_processor)
                    eq_refl eq_refl eq_refl
                    (proj1 (Nat.leb_le 1000 1644) eq_refl) eq_refl
                    (proj1 (Nat.leb_le 1600 1600) eq_refl))
             "Processor failed." eq_refl).
  - apply (proj2 (embed_inference_error
                    (broken_model_env clip) initial_world
                    (w1 := snd (load_model (broken_model_env clip)
                                  initial_world))
                    (contents := clip) (y := clip_samples) (sr := TARGET_SR)
                    (p := toy_processor)
                    eq_refl eq_refl eq_refl
                    (proj1 (Nat.leb_le 1000 1644) eq_refl) eq_refl
                    (proj1 (Nat.leb_le 1600 1600) eq_refl))
             clip_samples (eval broken_model) "Out of memory."
             eq_refl eq_refl eq_refl).
Defined.

Lemma embed_client_errors_witness :
  400 = 400 /\
  ((exists msg,
      audio_read (good_env (wav 999) 0) = inl msg /\
      "Audio file too short" = "Failed to read upload: " ++ msg) \/
   "Audio file too short" = "Audio file too short" \/
   (exists contents msg,
      audio_read (good_env (wav 999) 0) = inr contents /\
      librosa_load contents TARGET_SR true = inl msg /\
      "Audio file too short" = "Invalid audio: " ++ msg) \/
   "Audio file too short" = "Audio too short after load").
Proof.
  apply (embed_client_errors (good_env (wav 999) 0) ready_world
           (s := 400) (d := "Audio file too short")).
  reflexivity.
Defined.

Lemma embed_ok_implies_valid_witness :
  ready (snd (embed (good_env clip 7) initial_world)) = true /\
  exists contents y sr h,
    audio_read (good_env clip 7) = inr contents /\
    1000 <= List.length contents /\
    librosa_load contents TARGET_SR true = inr (y, sr) /\
    1600 <= List.length y /\
    mean_dim1 clip_hidden = mean_dim1 h.
Proof.
  apply (embed_ok_implies_valid (good_env clip 7) initial_world
           (body := {| embedding := mean_dim1 clip_hidden;
                       dim := List.length (mean_dim1 clip_hidden) |})).
  reflexivity.
Defined.

Lemma embed_pipeline_order_witness :
  exists n,
    n <= 3 /\
    snd (embed (good_env (text 1200) 0) ready_world)
    = logged (skipn n [ModelForward; ProcessorCall; LibrosaLoad; AudioRead])
        ready_world.
Proof.
  apply (embed_pipeline_order (good_env (text 1200) 0) ready_world).
  reflexivity.
Defined.

Lemma load_model_returns_iff_ready_witness :
  ready (snd (load_model (good_env [] 0) initial_world)) = true.
Proof.
  apply (proj1 (load_model_returns_iff_ready (good_env [] 0) initial_world)).
  reflexivity.
Defined.

Lemma load_model_recovers_witness :
  let w1 := snd (load_model (offline_env []) initial_world) in
  fst (load_model (good_env [] 0) w1) = Ok tt /\
  processor (snd (load_model (good_env [] 0) w1)) = Some toy_processor /\
  model (snd (load_model (good_env [] 0) w1)) = Some (eval toy_model).
Proof.
  apply (load_model_recovers (offline_env []) (good_env [] 0) initial_world
           (x := LibraryError "Can't load the model.")
           (p2 := toy_processor) (m2 := toy_model));
    reflexivity.
Defined.

Lemma reachable_globals_consistent_witness :
  (ready ready_world = true -> exists p, processor ready_world = Some p) /\
  forall e msg,
    fst (embed e ready_world) <> Raise (TypeError msg) /\
    fst (embed e ready_world) <> Raise (AttributeError msg).
Proof.
  apply reachable_globals_consistent.
  exists [OpStartup (good_env [] 0)]. reflexivity.
Defined.

Lemma reachable_model_in_eval_mode_witness :
  training (eval toy_model) = false /\
  forall n1 n2 x, forward (eval toy_model) n1 x = forward (eval toy_model) n2 x.
Proof.
  apply (reachable_model_in_eval_mode (w := ready_world)).
  - exists [OpStartup (good_env [] 0)]. reflexivity.
  - reflexivity.
Defined.

Lemma serving_never_reloads_witness :
  let w := world_after (good_env [] 0)
             [good_env (wav 999) 0; good_env clip 1; unreadable_env] in
  occurrences FromPretrainedProcessor (trace w) = 1 /\
  occurrences FromPretrainedModel (trace w) = 1 /\
  occurrences ModelEval (trace w) = 1.
Proof.
  apply (serving_never_reloads (good_env [] 0)
           [good_env (wav 999) 0; good_env clip 1; unreadable_env]
           (w0 := ready_world));
    reflexivity.
Defined.

Lemma serving_status_and_body_stateless_witness :
  map (option_map (fun r => (status_of r, body_of r)))
    (fst (serve_all (boot (good_env [] 0))
            [good_env (text 1200) 0; good_env clip 5; good_env (wav 999) 2]))
  = map (fun e => Some (status_of (respond (fst (embed e ready_world))),
                        body_of (respond (fst (embed e ready_world)))))
      [good_env (text 1200) 0; good_env clip 5; good_env (wav 999) 2].
Proof.
  apply serving_status_and_body_stateless. reflexivity.
Defined.
